(** * aiofluent: the emit pipeline of [aiofluent/sender.py]

    A shallow embedding of [EventTime] and [FluentSender] and the properties
    of the send/retry pipeline.

    Conventions of the embedding.
    - A Python [float] is a rational number together with the IEEE 754
      binary64 rounding [rnd] applied after every arithmetic operation that
      rounds; exact operations ([int()], [fmod], comparisons) are exact.
    - [bytes] is [list byte].
    - Exceptions are values of [exn]; a computation either returns or raises
      ([res]).  The class hierarchy is that of Python 3.8 and later, where
      [asyncio.CancelledError] derives from [BaseException] only.
    - Coroutines are run sequentially: an [await] is a call, and [async with
      self.lock] always obtains the lock.
    - What the outside world answers (clock readings, the outcome of
      [open_connection], [write], [drain], [close], the text of the current
      traceback) is supplied per call by an [env] record; what the sender
      does to the outside world is recorded as a list of [event]s. *)

From Stdlib Require Import ZArith QArith Qabs Qround Qpower String List Bool Lia Lqa.
From Stdlib.Strings Require Byte.
Import ListNotations.

Local Open Scope Z_scope.

(** ** Bytes *)

Definition bytes := list Byte.byte.

(** Python's [len(b)]. *)
Definition len (b : bytes) : Z := Z.of_nat (List.length b).

(** ** Exceptions and results *)

Inductive exn : Type :=
| SocketError          (* socket.error, an alias of OSError *)
| OSError
| BlockingIOError
| TimeoutError         (* asyncio.TimeoutError *)
| CancelledError       (* asyncio.CancelledError *)
| RuntimeError
| StructError          (* struct.error *)
| TypeError
| ValueError
| AttributeError
| KeyboardInterrupt.

(** [isinstance(e, Exception)]. *)
Definition is_Exception (e : exn) : bool :=
  match e with
  | CancelledError | KeyboardInterrupt => false
  | _ => true
  end.

(** The tuple of the first [except] clause of [_async_send_internal]:
    [(socket.error, asyncio.TimeoutError, asyncio.CancelledError, OSError,
    BlockingIOError)]. *)
Definition is_transport_error (e : exn) : bool :=
  match e with
  | SocketError | TimeoutError | CancelledError | OSError | BlockingIOError => true
  | _ => false
  end.

(** The tuple [(asyncio.TimeoutError, asyncio.CancelledError)] of
    [connection_factory]. *)
Definition is_timeout_or_cancel (e : exn) : bool :=
  match e with
  | TimeoutError | CancelledError => true
  | _ => false
  end.

Definition is_RuntimeError (e : exn) : bool :=
  match e with
  | RuntimeError => true
  | _ => false
  end.

Inductive res (A : Type) : Type :=
| Ret (a : A)
| Raise (e : exn).
Arguments Ret {A} a.
Arguments Raise {A} e.

Definition returned {A} (r : res A) : bool :=
  match r with Ret _ => true | Raise _ => false end.

(** ** Python floats

    A finite [float] is a rational [m * 2^e] with [|m| < 2^53] and
    [-1074 <= e <= 971].  Every rounding operation of IEEE 754 binary64
    (addition, multiplication, division) is the exact operation followed by
    [rnd], round to nearest, ties to even.  No operation of this program
    overflows: all intermediate magnitudes stay below [2^33]. *)

Local Open Scope Q_scope.

Definition pow2 (e : Z) : Q := Qpower 2 e.

Definition binary64 (x : Q) : Prop :=
  exists m e : Z,
    (Z.abs m < 2 ^ 53)%Z /\ (-1074 <= e <= 971)%Z /\ x == inject_Z m * pow2 e.

(** [floor (log2 x)] for [0 < x]. *)
Definition ilog2 (x : Q) : Z :=
  let c := (Z.log2 (Qnum x) - Z.log2 (Zpos (Qden x)))%Z in
  if Qle_bool (pow2 c) x then c else (c - 1)%Z.

(** Nearest integer, ties to even. *)
Definition rne (u : Q) : Z :=
  let f := Qfloor u in
  match Qcompare (u - inject_Z f) (1 # 2) with
  | Lt => f
  | Gt => (f + 1)%Z
  | Eq => if Z.even f then f else (f + 1)%Z
  end.

Definition rnd_pos (x : Q) : Q :=
  let e := Z.max (ilog2 x - 52) (-1074) in
  inject_Z (rne (x / pow2 e)) * pow2 e.

Definition rnd (x : Q) : Q :=
  match Qcompare x 0 with
  | Eq => 0
  | Gt => rnd_pos x
  | Lt => - rnd_pos (- x)
  end.

(** [a + b], [a * b] on floats and [n / d] on ints (true division, which
    CPython rounds correctly). *)
Definition fadd (a b : Q) : Q := rnd (a + b).
Definition fmul (a b : Q) : Q := rnd (a * b).
Definition int_truediv (n d : Z) : Q := rnd (inject_Z n / inject_Z d).

(** [int(x)]: truncation toward zero. *)
Definition int_of_float (x : Q) : Z :=
  if Qle_bool 0 x then Qfloor x else Qceiling x.

(** [x % 1] on floats ([float_rem] of CPython): the exact C [fmod], whose
    result has the sign of [x], shifted by the divisor when the signs
    differ. *)
Definition float_mod_1 (x : Q) : Q :=
  let m := x - inject_Z (int_of_float x) in
  match Qcompare m 0 with
  | Eq => 0
  | Gt => m
  | Lt => fadd m 1
  end.

(** ** [struct.pack(">II", ...)] and [struct.unpack(">II", ...)] *)

Local Open Scope Z_scope.

Definition byte_of_Z (z : Z) : Byte.byte :=
  match Byte.of_N (Z.to_N (z mod 256)) with
  | Some b => b
  | None => Byte.x00
  end.

Definition Z_of_byte (b : Byte.byte) : Z := Z.of_N (Byte.to_N b).

(** One big-endian unsigned 32-bit field. *)
Definition pack_u32_be (v : Z) : bytes :=
  [ byte_of_Z (Z.shiftr v 24); byte_of_Z (Z.shiftr v 16);
    byte_of_Z (Z.shiftr v 8); byte_of_Z v ].

Definition unpack_u32_be (b3 b2 b1 b0 : Byte.byte) : Z :=
  Z.lor (Z.shiftl (Z_of_byte b3) 24)
    (Z.lor (Z.shiftl (Z_of_byte b2) 16)
       (Z.lor (Z.shiftl (Z_of_byte b1) 8) (Z_of_byte b0))).

(** The format [I] accepts [0 <= v <= 2^32 - 1]. *)
Definition fits_u32 (v : Z) : bool := (0 <=? v) && (v <? 2 ^ 32).

Definition struct_pack_II (a b : Z) : res bytes :=
  if fits_u32 a && fits_u32 b
  then Ret (pack_u32_be a ++ pack_u32_be b)
  else Raise StructError.

Definition struct_unpack_II (b : bytes) : res (Z * Z) :=
  match b with
  | [a3; a2; a1; a0; b3; b2; b1; b0] =>
      Ret (unpack_u32_be a3 a2 a1 a0, unpack_u32_be b3 b2 b1 b0)
  | _ => Raise StructError
  end.

(** ** [EventTime] *)

(** [msgpack.ExtType]. *)
Record ExtType : Type := mkExtType { code : Z; data : bytes }.

(** [EventTime.__new__(cls, timestamp)]. *)
Definition EventTime (timestamp : Q) : res ExtType :=
  let seconds := int_of_float timestamp in
  let nanoseconds :=
    int_of_float (fmul (float_mod_1 timestamp) (inject_Z (10 ^ 9))) in
  match struct_pack_II seconds nanoseconds with
  | Ret d => Ret (mkExtType 0 d)
  | Raise e => Raise e
  end.

(** [EventTime.from_bytes(b)]. *)
Definition from_bytes (b : bytes) : res Q :=
  match struct_unpack_II b with
  | Ret (seconds, nanoseconds) =>
      Ret (fadd (inject_Z seconds) (int_truediv nanoseconds (10 ^ 9)))
  | Raise e => Raise e
  end.

(** [EventTime.from_bytes(EventTime(t).data)]. *)
Definition roundtrip (t : Q) : res Q :=
  match EventTime t with
  | Ret et => from_bytes (data et)
  | Raise e => Raise e
  end.

(** ** The sender object *)

(** A stream reader or writer, as returned by [asyncio.open_connection]. *)
Definition handle := nat.

(** The values a record may hold; [PyObject] is an arbitrary object. *)
Unset Elimination Schemes.
Inductive pyvalue : Type :=
| PyNone
| PyBool (b : bool)
| PyInt (z : Z)
| PyFloat (q : Q)
| PyStr (s : string)
| PyBytes (b : bytes)
| PyList (l : list pyvalue)
| PyDict (kv : list (pyvalue * pyvalue))
| PyObject (id : nat).
Set Elimination Schemes.

(** The tuple [(tag, timestamp, data)] of [_make_packet]. *)
Definition packet : Type := string * ExtType * pyvalue.

(** The constructor arguments, never assigned after [__init__].  The
    overflow handler is a caller-supplied function: [None] when it returns,
    [Some e] when it raises [e]. *)
Record config : Type := mkConfig {
  _tag : string;
  _host : string;
  _port : Z;
  _bufmax : Z;
  _timeout : Q;
  _verbose : bool;
  _buffer_overflow_handler : option (bytes -> option exn);
  _log_unhandled_exceptions : bool;
  _retry_timeout : Q;
  _error_count_limit : Z;
  _packer_kwargs : list (string * pyvalue)
}.

Record FluentSender : Type := mkSender {
  cfg : config;
  _pendings : option bytes;
  _reader : option handle;
  _writer : option handle;
  _last_error : option exn;
  _last_error_time : Q;
  _error_count : Z;
  _lock : bool             (* whether the asyncio.Lock has been created *)
}.

(** [FluentSender.__init__]. *)
Definition __init__ (c : config) : FluentSender :=
  mkSender c None None None None 0%Q 0 false.

Definition set_pendings (p : option bytes) (s : FluentSender) : FluentSender :=
  mkSender (cfg s) p (_reader s) (_writer s) (_last_error s)
    (_last_error_time s) (_error_count s) (_lock s).

Definition set_reader (r : option handle) (s : FluentSender) : FluentSender :=
  mkSender (cfg s) (_pendings s) r (_writer s) (_last_error s)
    (_last_error_time s) (_error_count s) (_lock s).

Definition set_writer (w : option handle) (s : FluentSender) : FluentSender :=
  mkSender (cfg s) (_pendings s) (_reader s) w (_last_error s)
    (_last_error_time s) (_error_count s) (_lock s).

Definition set_last_error (e : option exn) (s : FluentSender) : FluentSender :=
  mkSender (cfg s) (_pendings s) (_reader s) (_writer s) e
    (_last_error_time s) (_error_count s) (_lock s).

Definition set_last_error_time (t : Q) (s : FluentSender) : FluentSender :=
  mkSender (cfg s) (_pendings s) (_reader s) (_writer s) (_last_error s)
    t (_error_count s) (_lock s).

Definition set_error_count (n : Z) (s : FluentSender) : FluentSender :=
  mkSender (cfg s) (_pendings s) (_reader s) (_writer s) (_last_error s)
    (_last_error_time s) n (_lock s).

Definition set_lock (l : bool) (s : FluentSender) : FluentSender :=
  mkSender (cfg s) (_pendings s) (_reader s) (_writer s) (_last_error s)
    (_last_error_time s) (_error_count s) l.

(** ** The outside world *)

(** What the sender does to the outside world. *)
Inductive event : Type :=
| EvOpenConnection (host : string) (port : Z)
| EvStderr (msg : string)
| EvStderrDetail (ex : exn) (tb : string)
| EvPrint (p : packet)
| EvWrite (w : handle) (b : bytes)
| EvDrain (w : handle)
| EvWriterClose (w : handle)
| EvOverflowHandler (pending_events : bytes).

(** What the outside world answers during one call. *)
Record env : Type := mkEnv {
  now_acquire : Q;        (* time.time() in get_writer *)
  open_connection : res (handle * handle);
                          (* asyncio.wait_for(asyncio.open_connection(..)) *)
  now_connect_error : Q;  (* time.time() in connection_factory's handlers *)
  writer_write : option exn;   (* writer.write(bytes_) *)
  writer_drain : option exn;   (* asyncio.wait_for(writer.drain(), ..) *)
  now_send_error : Q;     (* time.time() in _async_send_internal's handlers *)
  writer_close : option exn;   (* self._writer.close() *)
  now_pack_error : Q;     (* time.time() in async_emit_with_time's handler *)
  now_emit : Q;           (* time.time() in async_emit *)
  format_exc : string     (* traceback.format_exc() *)
}.

(** ** Computations on the sender: state, exceptions and events *)

Definition M (A : Type) : Type := FluentSender -> res A * FluentSender * list event.

Definition ret {A} (a : A) : M A := fun s => (Ret a, s, []).

Definition raise {A} (e : exn) : M A := fun s => (Raise e, s, []).

Definition bind {A B} (m : M A) (k : A -> M B) : M B :=
  fun s =>
    match m s with
    | (Ret a, s1, l1) =>
        match k a s1 with
        | (r, s2, l2) => (r, s2, l1 ++ l2)
        end
    | (Raise e, s1, l1) => (Raise e, s1, l1)
    end.

(** [try: m  except ... as e: ...]; [handlers e] is the body of the first
    clause that matches [e], [None] when no clause does.  An exception raised
    inside a handler is not caught by the other clauses. *)
Definition try_except {A} (m : M A) (handlers : exn -> option (M A)) : M A :=
  fun s =>
    match m s with
    | (Ret a, s1, l1) => (Ret a, s1, l1)
    | (Raise e, s1, l1) =>
        match handlers e with
        | Some h =>
            match h s1 with
            | (r, s2, l2) => (r, s2, l1 ++ l2)
            end
        | None => (Raise e, s1, l1)
        end
    end.

Definition get : M FluentSender := fun s => (Ret s, s, []).
Definition modify (f : FluentSender -> FluentSender) : M unit := fun s => (Ret tt, f s, []).
Definition emit (e : event) : M unit := fun s => (Ret tt, s, [e]).

(** An external call that returns nothing or raises. *)
Definition outcome (o : option exn) : M unit :=
  match o with
  | None => ret tt
  | Some e => raise e
  end.

Declare Scope py_scope.
Delimit Scope py_scope with py.
Notation "x <- m ;; k" := (bind m (fun x => k))
  (at level 61, m at next level, right associativity) : py_scope.
Notation "m ;; k" := (bind m (fun _ => k))
  (at level 61, right associativity) : py_scope.
Local Open Scope py_scope.

Definition result {A} (x : res A * FluentSender * list event) : res A := fst (fst x).
Definition state {A} (x : res A * FluentSender * list event) : FluentSender := snd (fst x).
Definition trace {A} (x : res A * FluentSender * list event) : list event := snd x.

(** Truth value of [self._pendings]: neither [None] nor [b'']. *)
Definition truthy (p : option bytes) : bool :=
  match p with
  | Some (_ :: _) => true
  | _ => false
  end.

(** ** [FluentSender] methods *)

(** The [lock] property: the lock is created at its first use. *)
Definition lock : M unit := modify (set_lock true).

(** [clear_last_error]. *)
Definition clear_last_error : M unit :=
  modify (set_last_error None) ;;
  modify (set_last_error_time 0%Q).

(** The setter of the [last_error] property; [now] is what [time.time()]
    returns. *)
Definition last_error_setter (err : option exn) (now : Q) : M unit :=
  match err with
  | Some e =>
      modify (set_last_error (Some e)) ;;
      modify (set_last_error_time now)
  | None => clear_last_error
  end.

(** The module-level [connection_factory], the default of the constructor. *)
Definition connection_factory (w : env) : M (option (handle * handle)) :=
  try_except
    (s <- get ;;
     emit (EvOpenConnection (_host (cfg s)) (_port (cfg s))) ;;
     match open_connection w with
     | Ret rw => ret (Some rw)
     | Raise e => raise e
     end)
    (fun ex =>
       if is_timeout_or_cancel ex then
         Some (emit (EvStderr "Timeout connecting to fluentd") ;;
               last_error_setter (Some ex) (now_connect_error w) ;;
               ret None)
       else if is_Exception ex then
         Some (emit (EvStderr "Unknown error connecting to fluentd") ;;
               last_error_setter (Some ex) (now_connect_error w) ;;
               ret None)
       else None).

(** [a > b] on floats. *)
Definition Qgt_bool (a b : Q) : bool := negb (Qle_bool a b).

(** [get_writer]. *)
Definition get_writer (w : env) : M (option handle) :=
  lock ;;
  s <- get ;;
  match _writer s with
  | Some wr => ret (Some wr)
  | None =>
      if Qgt_bool (fadd (_last_error_time s) (_retry_timeout (cfg s))) (now_acquire w)
      then ret None
      else
        result <- connection_factory w ;;
        match result with
        | Some (r, wr) =>
            modify (set_reader (Some r)) ;;
            modify (set_writer (Some wr)) ;;
            modify (set_error_count 0)
        | None => ret tt
        end ;;
        s' <- get ;;
        ret (_writer s')
  end.

(** [_call_buffer_overflow_handler]. *)
Definition _call_buffer_overflow_handler (pending_events : bytes) : M unit :=
  try_except
    (s <- get ;;
     match _buffer_overflow_handler (cfg s) with
     | Some handler =>
         emit (EvOverflowHandler pending_events) ;;
         outcome (handler pending_events)
     | None => ret tt
     end)
    (fun ex => if is_Exception ex then Some (ret tt) else None).

Definition bytes_of (p : option bytes) : bytes :=
  match p with
  | Some b => b
  | None => []
  end.

(** [clean]. *)
Definition clean (bytes_ : bytes) : M unit :=
  s <- get ;;
  if truthy (_pendings s) && (len (bytes_of (_pendings s)) >? _bufmax (cfg s))
  then
    _call_buffer_overflow_handler (bytes_of (_pendings s)) ;;
    modify (set_pendings None)
  else
    modify (set_pendings (Some bytes_)).

(** [close]. *)
Definition close (w : env) : M unit :=
  s <- get ;;
  match _writer s with
  | Some wr =>
      try_except
        (emit (EvWriterClose wr) ;;
         outcome (writer_close w))
        (fun ex => if is_RuntimeError ex then Some (ret tt) else None) ;;
      modify (set_reader None) ;;
      modify (set_writer None)
  | None => ret tt
  end.

(** [_async_send_internal]. *)
Definition _async_send_internal (bytes_ : bytes) (w : env) : M bool :=
  s <- get ;;
  bytes_ <- (if truthy (_pendings s)
             then
               modify (set_pendings (Some (bytes_of (_pendings s) ++ bytes_))) ;;
               s' <- get ;;
               ret (bytes_of (_pendings s'))
             else ret bytes_) ;;
  try_except
    (writer <- get_writer w ;;
     match writer with
     | None =>
         clean bytes_ ;;
         ret false
     | Some wr =>
         emit (EvWrite wr bytes_) ;;
         outcome (writer_write w) ;;
         emit (EvDrain wr) ;;
         outcome (writer_drain w) ;;
         modify (set_pendings None) ;;
         modify (set_last_error_time 0%Q) ;;
         ret true
     end)
    (fun ex =>
       if is_transport_error ex then
         Some (last_error_setter (Some ex) (now_send_error w) ;;
               clean bytes_ ;;
               lock ;;
               close w ;;
               ret false)
       else if is_Exception ex then
         Some (s1 <- get ;;
               modify (set_error_count (_error_count s1 + 1)) ;;
               last_error_setter (Some ex) (now_send_error w) ;;
               emit (EvStderr "Unhandled exception sending data") ;;
               (if _log_unhandled_exceptions (cfg s1)
                then emit (EvStderrDetail ex (format_exc w))
                else ret tt) ;;
               clean bytes_ ;;
               s2 <- get ;;
               (if _error_count s2 >? _error_count_limit (cfg s2)
                then lock ;; close w
                else ret tt) ;;
               ret false)
       else None).

(** [_async_send]; [None] is Python's [None]. *)
Definition _async_send (bytes_ : bytes) (w : env) : M (option bool) :=
  try_except
    (result <- _async_send_internal bytes_ w ;;
     ret (Some result))
    (fun ex => if is_Exception ex then Some (ret None) else None).

(** The record substituted for one that cannot be serialized. *)
Definition critical_record (tb : string) : pyvalue :=
  PyDict [ (PyStr "level", PyStr "CRITICAL");
           (PyStr "message", PyStr "Can't output to log");
           (PyStr "traceback", PyStr tb) ].

(** The tag of a packet: [self._tag], followed by a dot and the label when
    the label is not empty. *)
Definition full_tag (s : FluentSender) (label : string) : string :=
  match label with
  | EmptyString => _tag (cfg s)
  | _ => (_tag (cfg s) ++ "." ++ label)%string
  end.

Section Emit.

(** [msgpack.packb(packet, **kwargs)], the external codec. *)
Variable packb : packet -> list (string * pyvalue) -> res bytes.

(** [_make_packet]. *)
Definition _make_packet (label : string) (timestamp : ExtType) (data : pyvalue)
  : M bytes :=
  s <- get ;;
  let tag := full_tag s label in
  let packet := (tag, timestamp, data) in
  (if _verbose (cfg s) then emit (EvPrint packet) else ret tt) ;;
  match packb packet (_packer_kwargs (cfg s)) with
  | Ret b => ret b
  | Raise e => raise e
  end.

(** [async_emit_with_time]. *)
Definition async_emit_with_time (label : string) (timestamp : Q) (data : pyvalue)
    (w : env) : M (option bool) :=
  et <- (match EventTime timestamp with
         | Ret et => ret et
         | Raise e => raise e
         end) ;;
  bytes_ <- try_except
              (_make_packet label et data)
              (fun e =>
                 if is_Exception e then
                   Some (last_error_setter (Some e) (now_pack_error w) ;;
                         _make_packet label et (critical_record (format_exc w)))
                 else None) ;;
  _async_send bytes_ w.

(** [async_emit]. *)
Definition async_emit (label : string) (data : pyvalue) (timestamp : option Q)
    (w : env) : M (option bool) :=
  let timestamp :=
    match timestamp with
    | None => now_emit w
    | Some t => t
    end in
  async_emit_with_time label timestamp data w.

End Emit.

(** ** The module-level sender *)

(** The module variable [_global_sender]: [None] until [setup] or
    [_set_global_sender] assigns it. *)
Definition global_sender : Type := option FluentSender.

(** [_set_global_sender(sender)]. *)
Definition _set_global_sender (sender : option FluentSender) (g : global_sender)
  : global_sender := sender.

(** [setup(tag, **kwargs)]; [c] is the configuration the constructor builds
    from its arguments. *)
Definition setup (c : config) (g : global_sender) : global_sender :=
  Some (__init__ c).

(** [get_global_sender()]. *)
Definition get_global_sender (g : global_sender) : option FluentSender := g.

(** The module-level [close()]: [get_global_sender().close()].  Calling a
    method of [None] raises [AttributeError]. *)
Definition module_close (w : env) (g : global_sender)
  : res unit * global_sender * list event :=
  match get_global_sender g with
  | None => (Raise AttributeError, g, [])
  | Some sender =>
      match close w sender with
      | (r, sender', l) => (r, Some sender', l)
      end
  end.

(** ** Sequences of calls *)

(** The operations a caller, or the sender itself, performs on the object. *)
Inductive op : Type :=
| Op_async_emit (label : string) (data : pyvalue) (timestamp : option Q)
| Op_async_emit_with_time (label : string) (timestamp : Q) (data : pyvalue)
| Op_make_packet (label : string) (timestamp : ExtType) (data : pyvalue)
| Op_async_send (bytes_ : bytes)
| Op_async_send_internal (bytes_ : bytes)
| Op_get_writer
| Op_clean (bytes_ : bytes)
| Op_call_buffer_overflow_handler (pending_events : bytes)
| Op_last_error_setter (err : option exn) (now : Q)
| Op_clear_last_error
| Op_lock
| Op_close.

Definition forget {A} (x : res A * FluentSender * list event) : FluentSender * list event :=
  (state x, trace x).

Section Run.

Variable packb : packet -> list (string * pyvalue) -> res bytes.

(** The state and the events one operation leaves behind, whether it
    returns or raises. *)
Definition run (o : op) (w : env) (s : FluentSender) : FluentSender * list event :=
  match o with
  | Op_async_emit label data timestamp => forget (async_emit packb label data timestamp w s)
  | Op_async_emit_with_time label timestamp data =>
      forget (async_emit_with_time packb label timestamp data w s)
  | Op_make_packet label timestamp data => forget (_make_packet packb label timestamp data s)
  | Op_async_send bytes_ => forget (_async_send bytes_ w s)
  | Op_async_send_internal bytes_ => forget (_async_send_internal bytes_ w s)
  | Op_get_writer => forget (get_writer w s)
  | Op_clean bytes_ => forget (clean bytes_ s)
  | Op_call_buffer_overflow_handler p => forget (_call_buffer_overflow_handler p s)
  | Op_last_error_setter err now => forget (last_error_setter err now s)
  | Op_clear_last_error => forget (clear_last_error s)
  | Op_lock => forget (lock s)
  | Op_close => forget (close w s)
  end.

(** The states a sender constructed with [c] can be in. *)
Inductive reachable (c : config) : FluentSender -> Prop :=
| reachable_init : reachable c (__init__ c)
| reachable_step : forall s o w,
    reachable c s -> reachable c (fst (run o w s)).

End Run.

(** Consecutive [_async_send] calls, each with its payload and the answers of
    the outside world; the events of all the calls are concatenated. *)
Fixpoint sends (l : list (bytes * env)) (s : FluentSender) : FluentSender * list event :=
  match l with
  | [] => (s, [])
  | (bytes_, w) :: l' =>
      let x := _async_send bytes_ w s in
      let y := sends l' (state x) in
      (fst y, trace x ++ snd y)
  end.

(** ** Observations on traces and outcomes *)

(** The arguments of the calls of the overflow handler, in order. *)
Fixpoint overflow_calls (l : list event) : list bytes :=
  match l with
  | [] => []
  | EvOverflowHandler b :: l' => b :: overflow_calls l'
  | _ :: l' => overflow_calls l'
  end.

(** The number of connection attempts. *)
Fixpoint connection_attempts (l : list event) : nat :=
  match l with
  | [] => O
  | EvOpenConnection _ _ :: l' => S (connection_attempts l')
  | _ :: l' => connection_attempts l'
  end.

(** The writers closed, in order. *)
Fixpoint writer_closes (l : list event) : list handle :=
  match l with
  | [] => []
  | EvWriterClose wr :: l' => wr :: writer_closes l'
  | _ :: l' => writer_closes l'
  end.

(** The payloads written, in order. *)
Fixpoint writes (l : list event) : list bytes :=
  match l with
  | [] => []
  | EvWrite _ b :: l' => b :: writes l'
  | _ :: l' => writes l'
  end.

(** A send that returned without success: [False] or [None]. *)
Definition failed (r : res (option bool)) : bool :=
  match r with
  | Ret (Some true) => false
  | Ret _ => true
  | Raise _ => false
  end.

(** An exception of the second [except] clause of [_async_send_internal]. *)
Definition internal_exception (e : exn) : bool :=
  is_Exception e && negb (is_transport_error e).

(** [writer.write] or, after it, [drain] raises an internal exception. *)
Definition raises_internal (w : env) : bool :=
  match writer_write w with
  | Some e => internal_exception e
  | None =>
      match writer_drain w with
      | Some e => internal_exception e
      | None => false
      end
  end.


(** [self._writer.close()] returns or raises the [RuntimeError] that
    [close] swallows. *)
Definition close_completes (w : env) : bool :=
  match writer_close w with
  | None => true
  | Some e => is_RuntimeError e
  end.


(** The half of the error-state invariant that the code maintains. *)
Definition error_time_cleared (s : FluentSender) : Prop :=
  _last_error s = None -> _last_error_time s = 0%Q.

(** ** Concrete scenarios *)

(** A sender with tag [app], a buffer cap of one byte, an overflow handler
    that returns, a cooldown of 30 seconds and an error-count limit of 1. *)
Definition demo_config : config :=
  mkConfig "app" "localhost" 24224 1 3%Q false (Some (fun _ => None)) false 30%Q 1 [].

(** A collector that accepts everything, at clock reading [now]. *)
Definition healthy (now : Q) : env :=
  mkEnv now (Ret (1%nat, 2%nat)) now None None now None now now "Traceback".

Definition with_open_connection (o : res (handle * handle)) (w : env) : env :=
  mkEnv (now_acquire w) o (now_connect_error w) (writer_write w) (writer_drain w)
    (now_send_error w) (writer_close w) (now_pack_error w) (now_emit w) (format_exc w).

Definition with_write (o : option exn) (w : env) : env :=
  mkEnv (now_acquire w) (open_connection w) (now_connect_error w) o (writer_drain w)
    (now_send_error w) (writer_close w) (now_pack_error w) (now_emit w) (format_exc w).

Definition with_drain (o : option exn) (w : env) : env :=
  mkEnv (now_acquire w) (open_connection w) (now_connect_error w) (writer_write w) o
    (now_send_error w) (writer_close w) (now_pack_error w) (now_emit w) (format_exc w).

Definition with_close (o : option exn) (w : env) : env :=
  mkEnv (now_acquire w) (open_connection w) (now_connect_error w) (writer_write w)
    (writer_drain w) (now_send_error w) o (now_pack_error w) (now_emit w) (format_exc w).

(** A codec that serializes every record to one byte, except arbitrary
    objects, on which it raises [TypeError]. *)
Definition demo_packb (p : packet) (kwargs : list (string * pyvalue)) : res bytes :=
  match snd p with
  | PyObject _ => Raise TypeError
  | _ => Ret [Byte.x93]
  end.

(** A sender with an open connection. *)
Definition connected : FluentSender :=
  set_writer (Some 2%nat) (set_reader (Some 1%nat) (__init__ demo_config)).

(** [float('8.861425548')], that is [0x1.1b90cc4f932a0p+3]. *)
Definition t_8_861425548 : Q := (0x11b90cc4f932a0 # (2 ^ 49))%Q.


(** A sender whose buffer cap leaves room for a few payloads. *)
Definition roomy_config : config :=
  mkConfig "app" "localhost" 24224 1024 3%Q false (Some (fun _ => None)) false 30%Q 10 [].

(** The collector refuses the connection. *)
Definition refused (now : Q) : env :=
  with_open_connection (Raise OSError) (healthy now).

(** The connection attempt times out. *)
Definition timed_out (now : Q) : env :=
  with_open_connection (Raise TimeoutError) (healthy now).

(** A sender with two bytes pending, more than the cap of [demo_config]. *)
Definition backlogged : FluentSender :=
  set_pendings (Some [Byte.x01; Byte.x02]) (__init__ demo_config).

(** A send that fails on [drain], then a send that succeeds after the
    cooldown. *)
Definition after_recovery : FluentSender :=
  fst (run demo_packb (Op_async_send [Byte.x02]) (healthy 200)
         (fst (run demo_packb (Op_async_send [Byte.x01])
                 (with_drain (Some OSError) (healthy 100))
                 (__init__ demo_config)))).

(** [write] raises an exception that is not a transport error. *)
Definition write_bug (now : Q) : env := with_write (Some ValueError) (healthy now).


(** [1700000000.5] and its extension value. *)
Definition t_1700000000_5 : Q := (17000000005 # 10)%Q.

Definition et_1700000000_5 : ExtType :=
  mkExtType 0 [Byte.x65; Byte.x53; Byte.xf1; Byte.x00;
               Byte.x1d; Byte.xcd; Byte.x65; Byte.x00].

(** A sender whose overflow handler raises [CancelledError]. *)
Definition cancelling_config : config :=
  mkConfig "app" "localhost" 24224 1 3%Q false (Some (fun _ => Some CancelledError))
    false 30%Q 1 [].

(** A sender without overflow handler. *)
Definition quiet_config : config :=
  mkConfig "app" "localhost" 24224 1 3%Q false None false 30%Q 1 [].

(** A codec that raises [TypeError] on every record. *)
Definition broken_packb (p : packet) (kwargs : list (string * pyvalue)) : res bytes :=
  Raise TypeError.

(** The writer is interrupted from the keyboard. *)
Definition interrupted (now : Q) : env :=
  with_write (Some KeyboardInterrupt) (healthy now).

(** * Properties *)

Ltac unfold_py :=
  unfold _async_send, _async_send_internal, get_writer, connection_factory,
    clean, close, _call_buffer_overflow_handler, last_error_setter,
    clear_last_error, lock, outcome, try_except, bind, ret, raise, get,
    modify, emit, result, state, trace, forget in *.

Ltac split_match :=
  match goal with
  | |- context [match ?x with _ => _ end] =>
      lazymatch x with
      | context [match _ with _ => _ end] => fail
      | _ => destruct x eqn:?
      end
  end.

Ltac run_py := unfold_py; cbn; repeat (split_match; cbn).

Lemma async_send_of_internal (bytes_ : bytes) (w : env) (s : FluentSender) :
  state (_async_send bytes_ w s) = state (_async_send_internal bytes_ w s) /\
  trace (_async_send bytes_ w s) = trace (_async_send_internal bytes_ w s) /\
  result (_async_send bytes_ w s) =
    match result (_async_send_internal bytes_ w s) with
    | Ret b => Ret (Some b)
    | Raise e => if is_Exception e then Ret None else Raise e
    end.
Proof.
  unfold _async_send, try_except, bind, ret, result, state, trace.
  destruct (_async_send_internal bytes_ w s) as [[[b|e] s1] l1]; cbn.
  - rewrite app_nil_r. auto.
  - destruct (is_Exception e); cbn; rewrite ?app_nil_r; auto.
Qed.



Lemma send_writes_pending (bytes_ : bytes) (w : env) (s : FluentSender) :
  forall wr payload,
    In (EvWrite wr payload) (trace (_async_send bytes_ w s)) ->
    payload = if truthy (_pendings s)
              then bytes_of (_pendings s) ++ bytes_
              else bytes_.
Proof.
  intros wr payload.
  destruct (async_send_of_internal bytes_ w s) as (_ & -> & _).
  destruct s as [c p r wo le lt ec lk].
  run_py; intros H; repeat (destruct H as [H|H]; try discriminate H; try (injection H as <- <-));
    try reflexivity; try contradiction.
Qed.

(** C10: [close] assigns nothing but [_reader] and [_writer].  The
    configuration, the pending buffer, [_last_error], [_last_error_time],
    [_error_count] and the lock are as before, whether the writer's [close]
    returns or raises; when [close] returns, [_writer] is [None], and so is
    [_reader] if a writer was open.  Whatever the next send writes is the
    buffered bytes followed by the new payload. *)
Theorem C10_close_touches_only_connection (w : env) (s : FluentSender) :
  let s' := state (close w s) in
  cfg s' = cfg s /\
  _pendings s' = _pendings s /\
  _last_error s' = _last_error s /\
  _last_error_time s' = _last_error_time s /\
  _error_count s' = _error_count s /\
  _lock s' = _lock s /\
  (returned (result (close w s)) = true ->
     _writer s' = None /\ (_writer s <> None -> _reader s' = None)) /\
  (forall bytes_ w' wr payload,
     In (EvWrite wr payload) (trace (_async_send bytes_ w' s')) ->
     payload = if truthy (_pendings s)
               then bytes_of (_pendings s) ++ bytes_
               else bytes_).
Proof.
  assert (F : let s' := state (close w s) in
              cfg s' = cfg s /\ _pendings s' = _pendings s /\
              _last_error s' = _last_error s /\
              _last_error_time s' = _last_error_time s /\
              _error_count s' = _error_count s /\ _lock s' = _lock s /\
              (returned (result (close w s)) = true ->
               _writer s' = None /\ (_writer s <> None -> _reader s' = None))).
  { destruct s as [c p r wo le lt ec lk]. run_py; repeat split; auto; try discriminate;
      intros; congruence. }
  cbn zeta in *. destruct F as (F1 & F2 & F3 & F4 & F5 & F6 & F7).
  repeat split; auto; try (apply F7; assumption).
  intros bytes_ w' wr payload H.
  apply send_writes_pending in H. rewrite F2 in H. exact H.
Qed.

Arguments len : simpl never.

Lemma len_app (a b : bytes) : len (a ++ b) = len a + len b.
Proof. unfold len. rewrite length_app. lia. Qed.

Lemma len_nonneg (a : bytes) : 0 <= len a.
Proof. unfold len. lia. Qed.

(** C3 (amended): when a non-empty pending buffer [P] is larger than
    [bufmax], an overflow handler is configured and a send of [bytes_] fails,
    the handler is called exactly once, with [P ++ bytes_] (the pending
    buffer after the new payload was appended to it), and the pending buffer
    is [None] afterwards. *)
Theorem C3_overflow_handler_gets_coalesced_payload
    (s : FluentSender) (bytes_ : bytes) (w : env)
    (handler : bytes -> option exn) (P : bytes) :
  _pendings s = Some P ->
  truthy (Some P) = true ->
  len P > _bufmax (cfg s) ->
  _buffer_overflow_handler (cfg s) = Some handler ->
  failed (result (_async_send bytes_ w s)) = true ->
  overflow_calls (trace (_async_send bytes_ w s)) = [P ++ bytes_] /\
  _pendings (state (_async_send bytes_ w s)) = None.
Proof.
  intros HP Ht Hlen Hh.
  destruct s as [c p r wo le lt ec lk]. cbn in HP, Hlen, Hh. subst p.
  destruct P as [|x P]; [discriminate Ht|].
  assert (E : (len ((x :: P) ++ bytes_) >? _bufmax c) = true).
  { apply Z.gtb_lt. rewrite len_app. pose proof (len_nonneg bytes_). lia. }
  revert E. destruct c as [tg ho po bm ti ve oh lu rt lim kw]. cbn in Hh. subst oh.
  cbn [_bufmax]. clear. intros E. cbn in E.
  run_py; intros; try discriminate; try congruence; auto.
Qed.

Lemma send_keeps_cfg (bytes_ : bytes) (w : env) (s : FluentSender) :
  cfg (state (_async_send bytes_ w s)) = cfg s.
Proof.
  destruct s as [c p r wo le lt ec lk]. run_py; reflexivity.
Qed.

(** The pending buffer after a failed send: the coalesced payload, unless it
    was larger than [bufmax], in which case it is dropped. *)
Lemma failed_send_pendings (bytes_ : bytes) (w : env) (s : FluentSender) :
  failed (result (_async_send bytes_ w s)) = true ->
  _pendings (state (_async_send bytes_ w s)) =
    if truthy (_pendings s)
    then if len (bytes_of (_pendings s) ++ bytes_) >? _bufmax (cfg s)
         then None
         else Some (bytes_of (_pendings s) ++ bytes_)
    else Some bytes_.
Proof.
  destruct s as [c p r wo le lt ec lk].
  destruct p as [[|x P]|]; run_py; intros; try discriminate; try congruence; auto.
Qed.

(** C6: starting without a pending buffer, two failed sends of [A] then [B]
    whose combined size is within [bufmax] leave one pending buffer,
    [A ++ B]. *)
Theorem C6_failed_sends_coalesce
    (s : FluentSender) (A B : bytes) (w1 w2 : env) :
  truthy (_pendings s) = false ->
  failed (result (_async_send A w1 s)) = true ->
  failed (result (_async_send B w2 (state (_async_send A w1 s)))) = true ->
  len (A ++ B) <= _bufmax (cfg s) ->
  _pendings (state (_async_send B w2 (state (_async_send A w1 s)))) = Some (A ++ B).
Proof.
  intros H0 H1 H2 Hlen.
  apply failed_send_pendings in H1. rewrite H0 in H1.
  apply failed_send_pendings in H2.
  rewrite H2, H1, send_keeps_cfg. cbn [bytes_of].
  destruct A as [|a A]; cbn [truthy app].
  - reflexivity.
  - replace (len (a :: A ++ B) >? _bufmax (cfg s)) with false; [reflexivity|].
    symmetry. rewrite Z.gtb_ltb. apply Z.ltb_ge. exact Hlen.
Qed.

Lemma Qgt_bool_true (a b : Q) : (b < a)%Q -> Qgt_bool a b = true.
Proof.
  intros H. unfold Qgt_bool. destruct (Qle_bool a b) eqn:E; [|reflexivity].
  apply Qle_bool_iff in E. exfalso. exact (Qlt_not_le _ _ H E).
Qed.

Lemma Qgt_bool_false (a b : Q) : (a <= b)%Q -> Qgt_bool a b = false.
Proof.
  intros H. unfold Qgt_bool. apply Qle_bool_iff in H. rewrite H. reflexivity.
Qed.

(** With no writer and the cooldown running, [get_writer] answers [None]
    and does nothing but create the lock. *)
Lemma get_writer_cooling_down (w : env) (s : FluentSender) :
  _writer s = None ->
  Qgt_bool (fadd (_last_error_time s) (_retry_timeout (cfg s))) (now_acquire w) = true ->
  get_writer w s = (Ret None, set_lock true s, []).
Proof.
  destruct s as [c p r wo le lt ec lk]. cbn. intros -> H.
  unfold get_writer, lock, bind, modify, get, ret. cbn. rewrite H. reflexivity.
Qed.

(** With no writer and no cooldown, [get_writer] calls the connection
    factory, once. *)
Lemma get_writer_attempts (w : env) (s : FluentSender) :
  _writer s = None ->
  Qgt_bool (fadd (_last_error_time s) (_retry_timeout (cfg s))) (now_acquire w) = false ->
  connection_attempts (trace (get_writer w s)) = 1%nat.
Proof.
  destruct s as [c p r wo le lt ec lk]. cbn. intros -> H.
  unfold get_writer, lock, bind, modify, get, ret. cbn. rewrite H.
  run_py; reflexivity.
Qed.

(** C4: let a connection attempt of [get_writer] fail with an exception that
    [connection_factory] records, at clock reading [T].  Then the sender has
    no writer and [_last_error_time = T]; every later [get_writer] at a clock
    reading strictly before [T + retry_timeout] returns [None], makes no
    connection attempt and changes nothing; one at or after
    [T + retry_timeout] makes one connection attempt.  The sum is the
    program's float addition. *)
Theorem C4_cooldown_enforced (s : FluentSender) (w : env) (e : exn) :
  _writer s = None ->
  Qgt_bool (fadd (_last_error_time s) (_retry_timeout (cfg s))) (now_acquire w) = false ->
  open_connection w = Raise e ->
  is_timeout_or_cancel e || is_Exception e = true ->
  let T := now_connect_error w in
  let s1 := state (get_writer w s) in
  _writer s1 = None /\ _last_error s1 = Some e /\ _last_error_time s1 = T /\
  forall w' : env,
    ((now_acquire w' < fadd T (_retry_timeout (cfg s)))%Q ->
       result (get_writer w' s1) = Ret None /\
       connection_attempts (trace (get_writer w' s1)) = 0%nat /\
       state (get_writer w' s1) = s1) /\
    ((fadd T (_retry_timeout (cfg s)) <= now_acquire w')%Q ->
       connection_attempts (trace (get_writer w' s1)) = 1%nat).
Proof.
  intros Hw Hc Ho He T s1.
  assert (S1 : s1 = set_last_error_time T (set_last_error (Some e) (set_lock true s))).
  { subst s1 T. destruct s as [c p r wo le lt ec lk]. cbn in Hw, Hc. subst wo.
    unfold get_writer, lock, bind, modify, get, ret. cbn. rewrite Hc.
    unfold connection_factory, try_except, bind, emit, get, raise. cbn. rewrite Ho.
    destruct (is_timeout_or_cancel e); cbn in He |- *; [reflexivity|].
    rewrite He. reflexivity. }
  assert (HW : _writer s1 = None) by (rewrite S1; exact Hw).
  assert (HT : _last_error_time s1 = T) by (rewrite S1; reflexivity).
  assert (HC : cfg s1 = cfg s) by (rewrite S1; reflexivity).
  split; [exact HW|]. split; [rewrite S1; reflexivity|]. split; [exact HT|].
  intros w'. split; intros H.
  - assert (G : get_writer w' s1 = (Ret None, set_lock true s1, [])).
    { apply get_writer_cooling_down; auto.
      rewrite HT, HC. apply Qgt_bool_true. exact H. }
    rewrite G. cbn. repeat split. rewrite S1. reflexivity.
  - apply get_writer_attempts; auto.
    rewrite HT, HC. apply Qgt_bool_false. exact H.
Qed.

(** One send over an open connection during which [write] or [drain] raises
    an internal exception. *)
Lemma internal_failure_step (bytes_ : bytes) (w : env) (s : FluentSender) (wr : handle) :
  _writer s = Some wr ->
  raises_internal w = true ->
  let x := _async_send bytes_ w s in
  cfg (state x) = cfg s /\
  _error_count (state x) = _error_count s + 1 /\
  (_error_count s + 1 <= _error_count_limit (cfg s) ->
     _writer (state x) = Some wr /\ writer_closes (trace x) = []) /\
  (_error_count s + 1 > _error_count_limit (cfg s) ->
     returned (result x) = true ->
     writer_closes (trace x) = [wr] /\
     (close_completes w = true -> _writer (state x) = None)).
Proof.
  destruct s as [c p r wo le lt ec lk]. cbn. intros -> H.
  unfold raises_internal, internal_exception, close_completes in *.
  revert H.
  run_py; intros; repeat split; intros; try reflexivity; try discriminate;
    try congruence;
    repeat match goal with
      | H : (_ >? _) = true |- _ => apply Z.gtb_lt in H
      | H : (_ >? _) = false |- _ => rewrite Z.gtb_ltb in H; apply Z.ltb_ge in H
      end; try lia.

Qed.

Lemma internal_failures_below_limit (wr : handle) (l : list (bytes * env)) :
  forall s : FluentSender,
    _writer s = Some wr ->
    Forall (fun bw => raises_internal (snd bw) = true) l ->
    _error_count s + Z.of_nat (length l) <= _error_count_limit (cfg s) ->
    cfg (fst (sends l s)) = cfg s /\
    _writer (fst (sends l s)) = Some wr /\
    writer_closes (snd (sends l s)) = [] /\
    _error_count (fst (sends l s)) = _error_count s + Z.of_nat (length l).
Proof.
  induction l as [|[b w] l IH]; intros s Hw Hf Hle.
  - cbn. repeat split; auto. lia.
  - inversion Hf as [|? ? Hb Hl]; subst. cbn [snd] in Hb.
    cbn [length] in Hle.
    destruct (internal_failure_step b w s wr Hw Hb) as (Hc & He & Hk & _).
    destruct Hk as [Hw1 Ht1]; [lia|].
    destruct (IH (state (_async_send b w s)) Hw1 Hl) as (Hc2 & Hw2 & Ht2 & He2).
    { rewrite Hc, He. lia. }
    cbn [sends fst snd length].
    rewrite Hc2, Hw2, He2, Hc, He.
    repeat split; auto; [|lia].
    assert (A : forall l1 l2, writer_closes (l1 ++ l2) = writer_closes l1 ++ writer_closes l2).
    { induction l1 as [|[] l1 IH1]; intros; cbn; rewrite ?IH1; reflexivity. }
    rewrite A, Ht1, Ht2. reflexivity.
Qed.

(** C5: with [error_count_limit = K], an open connection and the error
    counter at 0, the connection is still open after each of the first [K]
    consecutive sends that raise an internal exception, and no writer was
    closed; the [(K+1)]-th such send closes the writer (and clears the
    connection handle when the writer's [close] completes). *)
Theorem C5_error_count_threshold
    (K : nat) (s : FluentSender) (wr : handle)
    (l : list (bytes * env)) (bytes_ : bytes) (w : env) :
  _error_count_limit (cfg s) = Z.of_nat K ->
  _writer s = Some wr ->
  _error_count s = 0 ->
  Forall (fun bw => raises_internal (snd bw) = true) l ->
  length l = K ->
  raises_internal w = true ->
  returned (result (_async_send bytes_ w (fst (sends l s)))) = true ->
  (forall n, (n <= K)%nat ->
     _writer (fst (sends (firstn n l) s)) = Some wr /\
     writer_closes (snd (sends (firstn n l) s)) = [] /\
     _error_count (fst (sends (firstn n l) s)) = Z.of_nat n) /\
  writer_closes (trace (_async_send bytes_ w (fst (sends l s)))) = [wr] /\
  (close_completes w = true ->
     _writer (state (_async_send bytes_ w (fst (sends l s)))) = None).
Proof.
  intros HK Hw H0 Hf Hlen Hi Hr.
  assert (B : forall n, (n <= K)%nat ->
            cfg (fst (sends (firstn n l) s)) = cfg s /\
            _writer (fst (sends (firstn n l) s)) = Some wr /\
            writer_closes (snd (sends (firstn n l) s)) = [] /\
            _error_count (fst (sends (firstn n l) s)) = Z.of_nat n).
  { intros n Hn.
    assert (L : length (firstn n l) = n) by (rewrite length_firstn; lia).
    destruct (internal_failures_below_limit wr (firstn n l) s Hw) as (A1 & A2 & A3 & A4).
    - apply Forall_forall. intros x Hx. apply (proj1 (Forall_forall _ _) Hf).
      rewrite <- (firstn_skipn n l). apply in_or_app. left. exact Hx.
    - rewrite L, H0, HK. lia.
    - rewrite L, H0 in A4. repeat split; auto. }
  split.
  - intros n Hn. destruct (B n Hn) as (_ & B2 & B3 & B4). auto.
  - destruct (B K (le_n K)) as (B1 & B2 & B3 & B4).
    rewrite <- Hlen, firstn_all in B1, B2, B4.
    destruct (internal_failure_step bytes_ w (fst (sends l s)) wr B2 Hi)
      as (_ & _ & _ & Hk).
    apply Hk; [rewrite B1, B4, HK; lia | exact Hr].
Qed.

Arguments EventTime : simpl never.
Arguments fadd : simpl never.
Arguments Qgt_bool : simpl never.
Arguments _make_packet : simpl never.
Arguments _async_send : simpl never.

Lemma send_keeps_error_time_cleared (bytes_ : bytes) (w : env) (s : FluentSender) :
  error_time_cleared s -> error_time_cleared (state (_async_send bytes_ w s)).
Proof.
  unfold error_time_cleared.
  destruct s as [c p r wo le lt ec lk].
  run_py; intros; try discriminate; auto.
Qed.

Lemma send_internal_keeps_error_time_cleared (bytes_ : bytes) (w : env) (s : FluentSender) :
  error_time_cleared s -> error_time_cleared (state (_async_send_internal bytes_ w s)).
Proof.
  destruct (async_send_of_internal bytes_ w s) as (<- & _).
  apply send_keeps_error_time_cleared.
Qed.

Lemma make_packet_keeps_state packb label et d (s : FluentSender) :
  state (_make_packet packb label et d s) = s.
Proof.
  unfold _make_packet. run_py; reflexivity.
Qed.

(** [async_emit_with_time] is: build the packet, or record the failure and
    build the substitute, then send. *)
Lemma emit_with_time_keeps_error_time_cleared packb label t d (w : env) (s : FluentSender) :
  error_time_cleared s ->
  error_time_cleared (state (async_emit_with_time packb label t d w s)).
Proof.
  intros H.
  unfold async_emit_with_time, bind, try_except, ret, raise.
  destruct (EventTime t) as [et|e]; cbn; [|exact H].
  pose proof (make_packet_keeps_state packb label et d s) as E1.
  destruct (_make_packet packb label et d s) as [[[b|e] s1] l1]; cbn in E1; subst s1.
  - pose proof (send_keeps_error_time_cleared b w s H) as G.
    destruct (_async_send b w s) as [[r2 s2] l2]. exact G.
  - destruct (is_Exception e); [|exact H].
    set (s1 := set_last_error_time (now_pack_error w) (set_last_error (Some e) s)).
    assert (H1 : error_time_cleared s1) by (unfold error_time_cleared; discriminate).
    pose proof (make_packet_keeps_state packb label et
                  (critical_record (format_exc w)) s1) as E2.
    destruct (_make_packet packb label et (critical_record (format_exc w)) s1)
      as [[[b|e'] s2] l2]; cbn in E2; subst s2; cbn.
    + pose proof (send_keeps_error_time_cleared b w s1 H1) as G.
      destruct (_async_send b w s1) as [[r3 s3] l3]. exact G.
    + exact H1.
Qed.

Lemma run_keeps_error_time_cleared packb (o : op) (w : env) (s : FluentSender) :
  error_time_cleared s -> error_time_cleared (fst (run packb o w s)).
Proof.
  intros H. destruct o; cbn [run forget fst].
  - apply emit_with_time_keeps_error_time_cleared, H.
  - apply emit_with_time_keeps_error_time_cleared, H.
  - rewrite make_packet_keeps_state. exact H.
  - apply send_keeps_error_time_cleared, H.
  - apply send_internal_keeps_error_time_cleared, H.
  - revert H. unfold error_time_cleared. destruct s as [c p r wo le lt ec lk].
    run_py; intros; try discriminate; auto.
  - revert H. unfold error_time_cleared. destruct s as [c p r wo le lt ec lk].
    run_py; intros; try discriminate; auto.
  - revert H. unfold error_time_cleared. destruct s as [c p r wo le lt ec lk].
    run_py; intros; try discriminate; auto.
  - revert H. unfold error_time_cleared. destruct s as [c p r wo le lt ec lk].
    destruct err; run_py; intros; try discriminate; auto.
  - revert H. unfold error_time_cleared. destruct s as [c p r wo le lt ec lk].
    run_py; intros; try discriminate; auto.
  - exact H.
  - revert H. unfold error_time_cleared. destruct s as [c p r wo le lt ec lk].
    run_py; intros; try discriminate; auto.
Qed.

(** C7 (amended): in every state a sender can reach, by any sequence of its
    operations, [last_error_time] is 0 whenever [last_error] is [None]. *)
Theorem C7_no_error_implies_zero_error_time packb (c : config) (s : FluentSender) :
  reachable packb c s ->
  _last_error s = None -> _last_error_time s = 0%Q.
Proof.
  intros R. change (error_time_cleared s).
  induction R as [|s o w R IH].
  - intros _. reflexivity.
  - apply run_keeps_error_time_cleared, IH.
Qed.






(** ** Rounding to the nearest float *)

Section Rounding.

Local Open Scope Q_scope.

Lemma pow2_pos (e : Z) : 0 < pow2 e.
Proof. unfold pow2. apply Qpower_0_lt. reflexivity. Qed.

Lemma pow2_add (a b : Z) : pow2 (a + b) == pow2 a * pow2 b.
Proof. unfold pow2. apply Qpower_plus. discriminate. Qed.

Lemma pow2_Z (e : Z) : (0 <= e)%Z -> pow2 e == inject_Z (2 ^ e).
Proof. intros H. unfold pow2. rewrite Zpower_Qpower by exact H. reflexivity. Qed.

Lemma pow2_le (a b : Z) : (a <= b)%Z -> pow2 a <= pow2 b.
Proof.
  intros H. unfold pow2. apply Qpower_le_compat_l; [exact H|]. discriminate.
Qed.

Lemma inject_Z_succ (z : Z) : inject_Z (z + 1) == inject_Z z + 1.
Proof. rewrite inject_Z_plus. reflexivity. Qed.

(** [rne u] is an integer nearest to [u]. *)
Lemma rne_nearest (u : Q) (j : Z) :
  Qabs (inject_Z (rne u) - u) <= Qabs (inject_Z j - u).
Proof.
  pose proof (Qfloor_le u) as Hlo. pose proof (Qlt_floor u) as Hhi.
  rewrite inject_Z_succ in Hhi.
  assert (Hj : (j <= Qfloor u)%Z \/ (Qfloor u + 1 <= j)%Z) by lia.
  assert (Hj' : inject_Z j <= inject_Z (Qfloor u) \/ inject_Z (Qfloor u) + 1 <= inject_Z j).
  { destruct Hj as [Hj|Hj]; [left|right].
    - rewrite <- Zle_Qle. exact Hj.
    - rewrite <- inject_Z_succ, <- Zle_Qle. exact Hj. }
  clear Hj.
  unfold rne.
  set (f := Qfloor u) in *.
  destruct (Qcompare (u - inject_Z f) (1 # 2)) eqn:C.
  - apply Qeq_alt in C.
    destruct (Z.even f); [|rewrite inject_Z_succ];
      apply Qabs_case; intros; apply Qabs_case; intros; destruct Hj'; lra.
  - apply Qlt_alt in C.
    apply Qabs_case; intros; apply Qabs_case; intros; destruct Hj'; lra.
  - apply Qgt_alt in C. rewrite inject_Z_succ.
    apply Qabs_case; intros; apply Qabs_case; intros; destruct Hj'; lra.
Qed.


Lemma pow2_neg (e : Z) : pow2 (- e) == / pow2 e.
Proof. unfold pow2. apply Qpower_opp. Qed.

(** [2 ^ ilog2 x <= x] for a positive [x]. *)
Lemma ilog2_lower (x : Q) : 0 < x -> pow2 (ilog2 x) <= x.
Proof.
  intros Hx. unfold ilog2. destruct x as [a b]. cbn [Qnum Qden].
  set (la := Z.log2 a). set (lb := Z.log2 (Zpos b)).
  destruct (Qle_bool (pow2 (la - lb)) (a # b)) eqn:T.
  - apply Qle_bool_iff. exact T.
  - clear T.
    assert (Ha : (0 < a)%Z) by (unfold Qlt in Hx; cbn in Hx; lia).
    destruct (Z.log2_spec a Ha) as [Ha1 _].
    destruct (Z.log2_spec (Zpos b) eq_refl) as [_ Hb2].
    fold la in Ha1. fold lb in Hb2.
    assert (Hla : (0 <= la)%Z) by apply Z.log2_nonneg.
    assert (Hlb : (0 <= lb)%Z) by apply Z.log2_nonneg.
    replace (la - lb - 1)%Z with (la + - (lb + 1))%Z by lia.
    rewrite pow2_add, pow2_neg, !pow2_Z by lia.
    rewrite (Qmake_Qdiv a b). unfold Qdiv.
    assert (P1 : 0 < inject_Z (2 ^ la)).
    { rewrite <- (pow2_Z la Hla). apply pow2_pos. }
    assert (P2 : 0 < inject_Z (Zpos b)) by reflexivity.
    assert (P3 : inject_Z (2 ^ la) <= inject_Z a) by (rewrite <- Zle_Qle; exact Ha1).
    assert (P4 : inject_Z (Zpos b) <= inject_Z (2 ^ (lb + 1))).
    { rewrite <- Zle_Qle. unfold Z.succ in Hb2. lia. }
    set (A := inject_Z a) in *. set (B := inject_Z (Zpos b)) in *.
    set (P := inject_Z (2 ^ la)) in *. set (R := inject_Z (2 ^ (lb + 1))) in *.
    change (P * / R <= A / B).
    apply Qle_shift_div_l; [exact P2|].
    assert (P5 : B / R <= 1) by (apply Qle_shift_div_r; lra).
    assert (E : P * / R * B == P * (B / R)) by (field; lra).
    rewrite E.
    assert (P6 : P * (B / R) <= P * 1).
    { apply Qmult_le_l; [exact P1 | exact P5]. }
    lra.
Qed.

(** A value that a float can hold, with unbounded exponent above. *)
Definition representable (z : Q) : Prop :=
  exists m e : Z, (Z.abs m <= 2 ^ 53)%Z /\ (-1074 <= e)%Z /\ z == inject_Z m * pow2 e.

Lemma binary64_representable (z : Q) : binary64 z -> representable z.
Proof.
  intros (m & e & Hm & He & Hz). exists m, e. repeat split; [lia | lia | exact Hz].
Qed.

Lemma scaled_distance (j : Z) (p x : Q) :
  0 < p ->
  Qabs (inject_Z j * p - x) == Qabs (inject_Z j - x / p) * p.
Proof.
  intros Hp.
  rewrite <- (Qabs_pos p) at 3 by lra.
  rewrite <- Qabs_Qmult.
  apply Qabs_wd. field. lra.
Qed.


(** No representable value is nearer to a positive [x] than [rnd_pos x]. *)
Lemma rnd_pos_nearest (x z : Q) :
  0 < x -> representable z ->
  Qabs (rnd_pos x - x) <= Qabs (z - x).
Proof.
  intros Hx (m' & e' & Hm & He & Hz).
  unfold rnd_pos.
  set (e := Z.max (ilog2 x - 52) (-1074)).
  pose proof (pow2_pos e) as Hp.
  set (p := pow2 e) in *.
  (* an integer multiple of [p] at least as near to [x] as [z] *)
  assert (J : exists j : Z, Qabs (inject_Z j * p - x) <= Qabs (z - x)).
  { destruct (Z_le_gt_dec e e') as [Hle|Hgt].
    - exists (m' * 2 ^ (e' - e))%Z.
      assert (E : inject_Z (m' * 2 ^ (e' - e)) * p == z).
      { rewrite Hz, inject_Z_mult, <- pow2_Z by lia.
        replace e' with ((e' - e) + e)%Z at 2 by lia.
        rewrite pow2_add. fold p. ring. }
      rewrite E. apply Qle_refl.
    - exists (2 ^ 52)%Z.
      assert (He1 : e = (ilog2 x - 52)%Z) by lia.
      assert (L1 : inject_Z (2 ^ 52) * p <= x).
      { eapply Qle_trans; [|apply (ilog2_lower x Hx)].
        replace (ilog2 x) with (52 + e)%Z by lia.
        rewrite pow2_add, <- pow2_Z by lia. fold p. apply Qle_refl. }
      assert (L2 : z <= inject_Z (2 ^ 52) * p).
      { rewrite Hz.
        assert (A1 : inject_Z m' <= inject_Z (2 ^ 53)).
        { rewrite <- Zle_Qle. lia. }
        assert (A2 : pow2 e' <= pow2 (e - 1)) by (apply pow2_le; lia).
        assert (A3 : pow2 (e - 1) * 2 == p).
        { unfold p. replace e with ((e - 1) + 1)%Z at 2 by lia.
          rewrite pow2_add. reflexivity. }
        pose proof (pow2_pos e') as A4.
        assert (A5 : inject_Z m' * pow2 e' <= inject_Z (2 ^ 53) * pow2 e').
        { apply Qmult_le_r; [exact A4 | exact A1]. }
        assert (A6 : inject_Z (2 ^ 53) * pow2 e' <= inject_Z (2 ^ 53) * pow2 (e - 1)).
        { apply Qmult_le_l; [reflexivity | exact A2]. }
        assert (A7 : inject_Z (2 ^ 53) * pow2 (e - 1) == inject_Z (2 ^ 52) * p).
        { rewrite <- A3. change (inject_Z (2 ^ 53)) with (inject_Z (2 ^ 52) * 2). ring. }
        lra. }
      apply Qabs_case; intros; apply Qabs_case; intros; lra. }
  destruct J as [j Hj].
  eapply Qle_trans; [|exact Hj].
  rewrite !scaled_distance by exact Hp.
  apply Qmult_le_r; [exact Hp|]. apply rne_nearest.
Qed.

(** Rounding a non-negative number gives a representable value that is
    nearest to it. *)
Lemma rnd_nearest (x z : Q) :
  0 <= x -> representable z ->
  Qabs (rnd x - x) <= Qabs (z - x).
Proof.
  intros Hx Hz. unfold rnd.
  destruct (Qcompare x 0) eqn:C.
  - apply Qeq_alt in C.
    assert (E : Qabs (0 - x) == 0) by (rewrite C; reflexivity).
    rewrite E. apply Qabs_nonneg.
  - apply Qlt_alt in C. lra.
  - apply Qgt_alt in C. apply rnd_pos_nearest; assumption.
Qed.

Lemma representable_Z (n : Z) : (Z.abs n <= 2 ^ 53)%Z -> representable (inject_Z n).
Proof.
  intros H. exists n, 0%Z. repeat split; [exact H | lia |].
  unfold pow2. cbn. ring.
Qed.

End Rounding.

(** ** The [>II] layout *)

Lemma Z_of_byte_of_Z (z : Z) : Z_of_byte (byte_of_Z z) = z mod 256.
Proof.
  unfold Z_of_byte, byte_of_Z.
  pose proof (Z.mod_pos_bound z 256 eq_refl) as B.
  destruct (Byte.of_N (Z.to_N (z mod 256))) as [b|] eqn:E.
  - apply Byte.to_of_N in E. rewrite E. apply Z2N.id. lia.
  - apply Byte.of_N_None_iff in E. exfalso.
    assert (Z.of_N (Z.to_N (z mod 256)) = z mod 256) by (apply Z2N.id; lia).
    lia.
Qed.

Lemma unpack_pack_u32_be (v : Z) :
  0 <= v < 2 ^ 32 ->
  unpack_u32_be (byte_of_Z (Z.shiftr v 24)) (byte_of_Z (Z.shiftr v 16))
                (byte_of_Z (Z.shiftr v 8)) (byte_of_Z v) = v.
Proof.
  intros Hv. unfold unpack_u32_be. rewrite !Z_of_byte_of_Z.
  change 256 with (2 ^ 8).
  apply Z.bits_inj'. intros n Hn.
  rewrite !Z.lor_spec.
  assert (Hi : 32 <= n -> Z.testbit v n = false).
  { intros H. destruct (Z.eq_dec v 0) as [->|Hz]; [apply Z.bits_0|].
    apply Z.bits_above_log2; [lia|].
    assert (Z.log2 v < 32) by (apply Z.log2_lt_pow2; lia). lia. }
  destruct (Z.lt_ge_cases n 8); [|destruct (Z.lt_ge_cases n 16);
    [|destruct (Z.lt_ge_cases n 24); [|destruct (Z.lt_ge_cases n 32)]]];
    repeat match goal with
      | |- context [Z.testbit (Z.shiftl ?a ?k) n] =>
          first [ rewrite (Z.shiftl_spec_low a k n) by lia
                | rewrite (Z.shiftl_spec a k n) by lia ]
      end;
    rewrite ?Z.testbit_mod_pow2 by lia;
    rewrite ?Z.shiftr_spec by lia;
    repeat match goal with
      | |- context [?a <? ?b] =>
          first [ replace (a <? b) with true by (symmetry; apply Z.ltb_lt; lia)
                | replace (a <? b) with false by (symmetry; apply Z.ltb_ge; lia) ]
      end;
    cbn [andb orb]; rewrite ?orb_false_r;
    try (f_equal; lia).
  symmetry. apply Hi. lia.
Qed.

Lemma struct_roundtrip (a b : Z) :
  0 <= a < 2 ^ 32 -> 0 <= b < 2 ^ 32 ->
  exists d, struct_pack_II a b = Ret d /\ List.length d = 8%nat /\
            struct_unpack_II d = Ret (a, b).
Proof.
  intros Ha Hb. unfold struct_pack_II, fits_u32.
  replace (0 <=? a) with true by (symmetry; apply Z.leb_le; lia).
  replace (a <? 2 ^ 32) with true by (symmetry; apply Z.ltb_lt; lia).
  replace (0 <=? b) with true by (symmetry; apply Z.leb_le; lia).
  replace (b <? 2 ^ 32) with true by (symmetry; apply Z.ltb_lt; lia).
  cbn [andb]. eexists. split; [reflexivity|]. split; [reflexivity|].
  unfold pack_u32_be. cbn [app struct_unpack_II].
  rewrite !unpack_pack_u32_be by assumption. reflexivity.
Qed.

(** ** The round trip of [EventTime] *)

Section RoundTrip.

Local Open Scope Q_scope.

Variable t : Q.
Hypothesis t_float : binary64 t.
Hypothesis t_nonneg : 0 <= t.
Hypothesis t_small : t < inject_Z (2 ^ 32).

Let seconds : Z := Qfloor t.
Let x : Q := float_mod_1 t * inject_Z (10 ^ 9).
Let nanoseconds : Z := Qfloor (rnd x).

Lemma seconds_eq : int_of_float t = seconds.
Proof.
  unfold int_of_float. apply Qle_bool_iff in t_nonneg. rewrite t_nonneg. reflexivity.
Qed.

Lemma seconds_range : (0 <= seconds < 2 ^ 32)%Z.
Proof.
  unfold seconds. split.
  - change 0%Z with (Qfloor 0). apply Qfloor_resp_le. exact t_nonneg.
  - pose proof (Qfloor_le t) as H. rewrite Zlt_Qlt. lra.
Qed.

Lemma fraction_range : 0 <= t - inject_Z seconds < 1.
Proof.
  pose proof (Qfloor_le t) as H1. pose proof (Qlt_floor t) as H2.
  rewrite inject_Z_succ in H2. fold seconds in H1, H2. lra.
Qed.

Lemma float_mod_1_eq : float_mod_1 t == t - inject_Z seconds.
Proof.
  unfold float_mod_1. rewrite seconds_eq.
  pose proof fraction_range as [H1 H2].
  destruct (Qcompare (t - inject_Z seconds) 0) eqn:C.
  - apply Qeq_alt in C. rewrite C. reflexivity.
  - apply Qlt_alt in C. lra.
  - reflexivity.
Qed.

Lemma x_range : 0 <= x < inject_Z (10 ^ 9).
Proof.
  pose proof fraction_range as [H1 H2]. unfold x. rewrite float_mod_1_eq.
  change (inject_Z (10 ^ 9)) with (1000000000 # 1). lra.
Qed.


Lemma representable_nat_below (n : Z) :
  (0 <= n <= 10 ^ 9)%Z -> representable (inject_Z n).
Proof. intros H. apply representable_Z. lia. Qed.

(** The rounded product lies between the two integers around the exact
    product. *)
Lemma product_between :
  inject_Z (Qfloor x) <= rnd x <= inject_Z (Qfloor x) + 1.
Proof.
  pose proof x_range as [X1 X2].
  pose proof (Qfloor_le x) as F1. pose proof (Qlt_floor x) as F2.
  rewrite inject_Z_succ in F2.
  assert (K : (0 <= Qfloor x < 10 ^ 9)%Z).
  { split.
    - change 0%Z with (Qfloor 0). apply Qfloor_resp_le. exact X1.
    - rewrite Zlt_Qlt. lra. }
  assert (R1 : representable (inject_Z (Qfloor x)))
    by (apply representable_nat_below; lia).
  assert (R2 : representable (inject_Z (Qfloor x + 1)))
    by (apply representable_nat_below; lia).
  pose proof (rnd_nearest x _ X1 R1) as N1.
  pose proof (rnd_nearest x _ X1 R2) as N2.
  rewrite inject_Z_succ in N2.
  assert (A1 : Qabs (inject_Z (Qfloor x) - x) == x - inject_Z (Qfloor x)).
  { rewrite Qabs_neg by lra. ring. }
  assert (A2 : Qabs (inject_Z (Qfloor x) + 1 - x) == inject_Z (Qfloor x) + 1 - x).
  { apply Qabs_pos. lra. }
  rewrite A1 in N1. rewrite A2 in N2.
  apply Qabs_Qle_condition in N1. apply Qabs_Qle_condition in N2. lra.
Qed.

Lemma nanoseconds_eq :
  int_of_float (fmul (float_mod_1 t) (inject_Z (10 ^ 9))) = nanoseconds.
Proof.
  unfold fmul, int_of_float. fold x.
  pose proof product_between as [P1 _]. pose proof x_range as [X1 _].
  assert (K : 0 <= inject_Z (Qfloor x)).
  { change 0 with (inject_Z 0). rewrite <- Zle_Qle.
    change 0%Z with (Qfloor 0). apply Qfloor_resp_le. exact X1. }
  assert (H : 0 <= rnd x) by lra.
  apply Qle_bool_iff in H. rewrite H. reflexivity.
Qed.

(** The stored nanoseconds are within one of the exact product. *)
Lemma nanoseconds_range :
  (0 <= nanoseconds <= 10 ^ 9)%Z /\
  Qabs (inject_Z nanoseconds - x) <= 1.
Proof.
  pose proof product_between as [P1 P2]. pose proof x_range as [X1 X2].
  pose proof (Qfloor_le x) as F1. pose proof (Qlt_floor x) as F2.
  rewrite inject_Z_succ in F2.
  pose proof (Qfloor_le (rnd x)) as G1. pose proof (Qlt_floor (rnd x)) as G2.
  rewrite inject_Z_succ in G2. fold nanoseconds in G1, G2.
  assert (L : (Qfloor x <= nanoseconds)%Z).
  { unfold nanoseconds. rewrite <- (Qfloor_Z (Qfloor x)).
    apply Qfloor_resp_le. exact P1. }
  assert (U : (nanoseconds <= Qfloor x + 1)%Z).
  { rewrite Zle_Qle, inject_Z_succ. lra. }
  assert (K : (0 <= Qfloor x < 10 ^ 9)%Z).
  { split.
    - change 0%Z with (Qfloor 0). apply Qfloor_resp_le. exact X1.
    - rewrite Zlt_Qlt. lra. }
  split; [lia|].
  apply Qabs_Qle_condition.
  assert (L' : inject_Z (Qfloor x) <= inject_Z nanoseconds) by (rewrite <- Zle_Qle; exact L).
  assert (U' : inject_Z nanoseconds <= inject_Z (Qfloor x) + 1).
  { rewrite <- inject_Z_succ, <- Zle_Qle. exact U. }
  lra.
Qed.


Let v : Q := inject_Z nanoseconds / inject_Z (10 ^ 9).
Let q : Q := int_truediv nanoseconds (10 ^ 9).
Let r : Q := fadd (inject_Z seconds) q.

Lemma v_range : 0 <= v <= 1.
Proof.
  pose proof nanoseconds_range as [[N1 N2] _].
  assert (A : 0 <= inject_Z nanoseconds) by (change 0 with (inject_Z 0); rewrite <- Zle_Qle; lia).
  assert (B : inject_Z nanoseconds <= inject_Z (10 ^ 9)) by (rewrite <- Zle_Qle; lia).
  unfold v. split.
  - apply Qle_shift_div_l; [reflexivity|]. lra.
  - apply Qle_shift_div_r; [reflexivity|]. lra.
Qed.

(** The quotient is rounded by at most [2^-53] and is not negative. *)
Lemma quotient_error : 0 <= q /\ Qabs (q - v) <= 1 # (2 ^ 53).
Proof.
  pose proof v_range as [V1 V2].
  change q with (rnd v).
  split.
  - assert (Z0 : representable 0).
    { exists 0%Z, 0%Z. split; [lia|]. split; [lia|]. reflexivity. }
    pose proof (rnd_nearest v 0 V1 Z0) as N.
    assert (E : Qabs (0 - v) == v) by (rewrite Qabs_neg by lra; ring).
    rewrite E in N. apply Qabs_Qle_condition in N. lra.
  - set (m := Qfloor (v * inject_Z (2 ^ 53))).
    pose proof (Qfloor_le (v * inject_Z (2 ^ 53))) as F1.
    pose proof (Qlt_floor (v * inject_Z (2 ^ 53))) as F2.
    rewrite inject_Z_succ in F2. fold m in F1, F2.
    assert (P : pow2 (-53) == 1 # (2 ^ 53)) by reflexivity.
    assert (I : inject_Z (2 ^ 53) == 9007199254740992 # 1) by reflexivity.
    assert (M : (0 <= m <= 2 ^ 53)%Z).
    { split.
      - change 0%Z with (Qfloor 0). apply Qfloor_resp_le. rewrite I. lra.
      - rewrite Zle_Qle. rewrite I in *. lra. }
    assert (Zr : representable (inject_Z m * pow2 (-53))).
    { exists m, (-53)%Z. split; [lia|]. split; [lia|]. reflexivity. }
    pose proof (rnd_nearest v _ V1 Zr) as N.
    eapply Qle_trans; [exact N|].
    rewrite P. rewrite I in F1, F2.
    change (1 # 2 ^ 53) with (1 # 9007199254740992).
    apply Qabs_Qle_condition. split; lra.
Qed.

(** The decoded value is within [2e-9 + 2^-52] of the timestamp. *)
Lemma decoded_close : Qabs (r - t) <= (2 # 10 ^ 9) + (1 # 2 ^ 52).
Proof.
  pose proof quotient_error as [Q0 Q1].
  pose proof nanoseconds_range as [_ N].
  pose proof seconds_range as [S0 _].
  pose proof float_mod_1_eq as FM.
  assert (S0' : 0 <= inject_Z seconds) by (change 0 with (inject_Z 0); rewrite <- Zle_Qle; lia).
  assert (Y : 0 <= inject_Z seconds + q) by lra.
  pose proof (rnd_nearest _ t Y (binary64_representable t t_float)) as R.
  change (rnd (inject_Z seconds + q)) with r in R.
  assert (XV : v - (t - inject_Z seconds) == (inject_Z nanoseconds - x) * (1 # 10 ^ 9)).
  { unfold v, x. rewrite FM. change (inject_Z (10 ^ 9)) with (1000000000 # 1).
    change (1 # 10 ^ 9) with (1 # 1000000000).
    unfold Qdiv. change (/ (1000000000 # 1)) with (1 # 1000000000). ring. }
  apply Qabs_Qle_condition in N. apply Qabs_Qle_condition in Q1.
  assert (D : Qabs (t - (inject_Z seconds + q)) <= (1 # 10 ^ 9) + (1 # 2 ^ 53)).
  { apply Qabs_Qle_condition.
    change (1 # 10 ^ 9) with (1 # 1000000000) in *.
    change (1 # 2 ^ 53) with (1 # 9007199254740992) in *.
    split; lra. }
  pose proof D as D'. apply Qabs_Qle_condition in R. apply Qabs_Qle_condition in D'.
  apply Qabs_Qle_condition.
  change (1 # 10 ^ 9) with (1 # 1000000000) in *.
  change (2 # 10 ^ 9) with (2 # 1000000000) in *.
  change (1 # 2 ^ 53) with (1 # 9007199254740992) in *.
  change (1 # 2 ^ 52) with (1 # 4503599627370496) in *.
  split; lra.
Qed.

End RoundTrip.

(** C2 (amended): for every float [t] with [0 <= t < 2^32], [EventTime t]
    builds an extension value of code 0 with an 8-byte payload, and decoding
    that payload with [from_bytes] gives a float within [2e-9 + 2^-52] of
    [t]. *)
Theorem C2_roundtrip_within_two_nanoseconds (t : Q) :
  binary64 t ->
  (0 <= t)%Q ->
  (t < inject_Z (2 ^ 32))%Q ->
  exists (et : ExtType) (r : Q),
    EventTime t = Ret et /\
    code et = 0 /\
    List.length (data et) = 8%nat /\
    from_bytes (data et) = Ret r /\
    (Qabs (r - t) <= (2 # 10 ^ 9) + (1 # 2 ^ 52))%Q.
Proof.
  intros Hf H0 H1.
  pose proof (seconds_range t H0 H1) as Hs.
  pose proof (nanoseconds_range t H0) as [Hn _].
  destruct (struct_roundtrip (Qfloor t)
              (Qfloor (rnd (float_mod_1 t * inject_Z (10 ^ 9)))))
    as (d & Hp & Hl & Hu); [exact Hs | lia |].
  exists (mkExtType 0 d).
  exists (fadd (inject_Z (Qfloor t))
            (int_truediv (Qfloor (rnd (float_mod_1 t * inject_Z (10 ^ 9)))) (10 ^ 9))).
  split.
  - unfold EventTime. rewrite (seconds_eq t H0), (nanoseconds_eq t H0), Hp.
    reflexivity.
  - split; [reflexivity|]. split; [exact Hl|]. split.
    + unfold from_bytes. cbn [data]. rewrite Hu. reflexivity.
    + exact (decoded_close t Hf H0 H1).
Qed.

(** C2 (as stated, refuted): [t = float('8.861425548')] is a float with
    [0 <= t < 2^32], the nearest one to the nanosecond-granular
    [8861425548 / 10^9]; it is stored as 8 seconds and 861425547
    nanoseconds and decoded as [float('8.861425547')], which is more than
    [1e-9] away from [t]. *)
Lemma C2_roundtrip_off_by_more_than_1ns :
  binary64 t_8_861425548 /\
  t_8_861425548 = rnd (8861425548 # 10 ^ 9) /\
  (0 <= t_8_861425548 < inject_Z (2 ^ 32))%Q /\
  exists r : Q,
    roundtrip t_8_861425548 = Ret r /\
    ~ (Qabs (r - t_8_861425548) <= 1 # 10 ^ 9)%Q.
Proof.
  split.
  { exists 0x11b90cc4f932a0, (-49). split; [reflexivity|]. split; [lia|]. reflexivity. }
  split; [vm_compute; reflexivity|].
  split; [split; [discriminate | reflexivity]|].
  eexists. split; [vm_compute; reflexivity|].
  vm_compute. intros H. apply H. reflexivity.
Qed.

(** * Instances on concrete senders *)

Lemma C2_roundtrip_witness :
  exists (et : ExtType) (r : Q),
    EventTime t_1700000000_5 = Ret et /\
    code et = 0 /\
    List.length (data et) = 8%nat /\
    from_bytes (data et) = Ret r /\
    (Qabs (r - t_1700000000_5) <= (2 # 10 ^ 9) + (1 # 2 ^ 52))%Q.
Proof.
  apply (C2_roundtrip_within_two_nanoseconds t_1700000000_5).
  - exists 3400000001, (-1). split; [reflexivity|]. split; [lia|]. reflexivity.
  - discriminate.
  - reflexivity.
Defined.

(** C3 (as stated, refuted): with two bytes pending, a cap of one byte and
    a failed send of a third byte, the handler is called with all three
    bytes, not with the two that were pending before the send. *)
Lemma C3_handler_gets_new_payload_too :
  _pendings backlogged = Some [Byte.x01; Byte.x02] /\
  len [Byte.x01; Byte.x02] > _bufmax (cfg backlogged) /\
  failed (result (_async_send [Byte.x03] (refused 100) backlogged)) = true /\
  overflow_calls (trace (_async_send [Byte.x03] (refused 100) backlogged))
    = [[Byte.x01; Byte.x02; Byte.x03]] /\
  overflow_calls (trace (_async_send [Byte.x03] (refused 100) backlogged))
    <> [[Byte.x01; Byte.x02]].
Proof.
  repeat split; try reflexivity. vm_compute. discriminate.
Qed.

Lemma C3_overflow_witness :
  overflow_calls (trace (_async_send [Byte.x03] (refused 100) backlogged))
    = [[Byte.x01; Byte.x02] ++ [Byte.x03]] /\
  _pendings (state (_async_send [Byte.x03] (refused 100) backlogged)) = None.
Proof.
  apply (C3_overflow_handler_gets_coalesced_payload backlogged [Byte.x03]
           (refused 100) (fun _ => None) [Byte.x01; Byte.x02]);
    reflexivity.
Defined.

Lemma C4_cooldown_witness :
  _writer (state (get_writer (timed_out 100) (__init__ demo_config))) = None /\
  _last_error (state (get_writer (timed_out 100) (__init__ demo_config)))
    = Some TimeoutError.
Proof.
  pose proof (C4_cooldown_enforced (__init__ demo_config) (timed_out 100)
                TimeoutError eq_refl eq_refl eq_refl eq_refl) as H.
  cbv zeta in H. destruct H as (H1 & H2 & _). split; [exact H1 | exact H2].
Defined.

Lemma C5_threshold_witness :
  writer_closes
    (trace (_async_send [Byte.x02] (write_bug 100)
              (fst (sends [([Byte.x01], write_bug 100)] connected))))
    = [2%nat].
Proof.
  refine (proj1 (proj2 (C5_error_count_threshold 1 connected 2%nat
                          [([Byte.x01], write_bug 100)] [Byte.x02] (write_bug 100)
                          eq_refl eq_refl eq_refl _ eq_refl eq_refl eq_refl))).
  constructor; [reflexivity | constructor].
Defined.

Lemma C6_coalesce_witness :
  _pendings
    (state (_async_send [Byte.x02] (refused 101)
              (state (_async_send [Byte.x01] (refused 100) (__init__ roomy_config)))))
    = Some ([Byte.x01] ++ [Byte.x02]).
Proof.
  apply (C6_failed_sends_coalesce (__init__ roomy_config) [Byte.x01] [Byte.x02]
           (refused 100) (refused 101)); try reflexivity.
  vm_compute. discriminate.
Defined.

(** C7 (as stated, refuted): after a failed send and then a successful
    one, [last_error_time] is 0 while [last_error] still holds the error of
    the failed send. *)
Lemma C7_success_keeps_last_error :
  reachable demo_packb demo_config after_recovery /\
  _last_error_time after_recovery = 0%Q /\
  _last_error after_recovery = Some OSError /\
  ~ ((_last_error_time after_recovery == 0)%Q <-> _last_error after_recovery = None).
Proof.
  split; [unfold after_recovery; do 2 apply reachable_step; apply reachable_init|].
  split; [reflexivity|]. split; [reflexivity|].
  intros [H _]. specialize (H (Qeq_refl 0)). vm_compute in H. discriminate H.
Qed.

Lemma C7_invariant_witness :
  _last_error_time (fst (run demo_packb Op_close (healthy 100) (__init__ demo_config)))
    = 0%Q.
Proof.
  apply (C7_no_error_implies_zero_error_time demo_packb demo_config).
  - apply reachable_step. apply reachable_init.
  - reflexivity.
Defined.



(** * Further properties of the code *)

Ltac tidy :=
  repeat match goal with
         | H : Some _ = Some _ |- _ => inversion H; subst; clear H
         | H : Ret _ = Ret _ |- _ => inversion H; subst; clear H
         | H : Raise _ = Raise _ |- _ => inversion H; subst; clear H
         | H : (_, _) = (_, _) |- _ => inversion H; subst; clear H
         end; try congruence.

(** ** What one send does to the outside world *)

(** X1: one [_async_send] makes at most one connection attempt, writes at
    most one payload and closes at most one writer; it calls the overflow
    handler at most twice. *)
Theorem send_effects_bounded (bytes_ : bytes) (w : env) (s : FluentSender) :
  (connection_attempts (trace (_async_send bytes_ w s)) <= 1)%nat /\
  (List.length (writes (trace (_async_send bytes_ w s))) <= 1)%nat /\
  (List.length (writer_closes (trace (_async_send bytes_ w s))) <= 1)%nat /\
  (List.length (overflow_calls (trace (_async_send bytes_ w s))) <= 2)%nat.
Proof.
  destruct s as [c p r wo le lt ec lk].
  run_py; repeat split; lia.
Qed.

(** X2: when the overflow handler raises nothing but instances of
    [Exception], one [_async_send] calls it at most once. *)
Theorem overflow_handler_called_at_most_once
    (bytes_ : bytes) (w : env) (s : FluentSender) :
  (forall h b e,
      _buffer_overflow_handler (cfg s) = Some h -> h b = Some e ->
      is_Exception e = true) ->
  (List.length (overflow_calls (trace (_async_send bytes_ w s))) <= 1)%nat.
Proof.
  destruct s as [c p r wo le lt ec lk]. cbn [cfg]. intros H.
  run_py; try lia; tidy;
    repeat match goal with
           | H2 : ?h _ = Some ?e |- _ => pose proof (H _ _ _ eq_refl H2); clear H2
           end; congruence.
Qed.

(** X3: an overflow handler that raises [CancelledError] is called twice by
    one send.  Without a writer and inside the cooldown, with a backlog that
    the new payload takes over [bufmax], [clean] calls the handler; its
    [CancelledError] is caught by the transport clause, which calls [clean],
    and so the handler, again; the second [CancelledError] leaves
    [_async_send].  The backlog stays in [_pendings]. *)
Theorem cancelling_handler_is_called_twice
    (bytes_ : bytes) (w : env) (s : FluentSender) (h : bytes -> option exn) :
  _writer s = None ->
  Qgt_bool (fadd (_last_error_time s) (_retry_timeout (cfg s))) (now_acquire w) = true ->
  truthy (_pendings s) = true ->
  len (bytes_of (_pendings s) ++ bytes_) > _bufmax (cfg s) ->
  _buffer_overflow_handler (cfg s) = Some h ->
  h (bytes_of (_pendings s) ++ bytes_) = Some CancelledError ->
  let x := _async_send bytes_ w s in
  result x = Raise CancelledError /\
  overflow_calls (trace x) =
    [bytes_of (_pendings s) ++ bytes_; bytes_of (_pendings s) ++ bytes_] /\
  _pendings (state x) = Some (bytes_of (_pendings s) ++ bytes_) /\
  _last_error (state x) = Some CancelledError.
Proof.
  destruct s as [c p r wo le lt ec lk]. cbn [_writer cfg _pendings _last_error_time].
  intros -> Hc Hp Hl Hh He.
  destruct p as [[|x0 P]|]; try discriminate Hp. cbn [bytes_of] in *.
  apply Z.gt_lt, Z.gtb_lt in Hl. cbn [app] in Hl, He.
  unfold _async_send, _async_send_internal, get_writer, clean,
    _call_buffer_overflow_handler, last_error_setter, lock, outcome, try_except,
    bind, ret, raise, get, modify, emit, result, state, trace.
  cbn. rewrite Hc. cbn. rewrite Hl. cbn. rewrite Hh. cbn. rewrite He. cbn.
  rewrite Hl. cbn. rewrite Hh. cbn. rewrite He. cbn.
  repeat split; reflexivity.
Qed.

(** X4: a send that returns [True] wrote exactly one payload, the pending
    bytes followed by the new ones; afterwards a writer is open, the pending
    buffer is [None] and [last_error_time] is 0, [last_error] is as before,
    the overflow handler was not called and no writer was closed. *)
Theorem successful_send_drains_backlog (bytes_ : bytes) (w : env) (s : FluentSender) :
  result (_async_send bytes_ w s) = Ret (Some true) ->
  let x := _async_send bytes_ w s in
  writes (trace x) =
    [if truthy (_pendings s) then bytes_of (_pendings s) ++ bytes_ else bytes_] /\
  _pendings (state x) = None /\
  _last_error_time (state x) = 0%Q /\
  _last_error (state x) = _last_error s /\
  _writer (state x) <> None /\
  overflow_calls (trace x) = [] /\
  writer_closes (trace x) = [].
Proof.
  destruct s as [c p r wo le lt ec lk].
  run_py; intros; try discriminate; repeat split; try reflexivity;
    try discriminate; try congruence.
Qed.

(** X5: without a writer and inside the cooldown, a send whose payload does
    not take the backlog over [bufmax] does nothing to the outside world: it
    returns [False] and only stores the coalesced payload (and creates the
    lock). *)
Theorem send_during_cooldown_only_buffers (bytes_ : bytes) (w : env) (s : FluentSender) :
  _writer s = None ->
  Qgt_bool (fadd (_last_error_time s) (_retry_timeout (cfg s))) (now_acquire w) = true ->
  truthy (_pendings s) = false \/
    len (bytes_of (_pendings s) ++ bytes_) <= _bufmax (cfg s) ->
  _async_send bytes_ w s =
    (Ret (Some false),
     set_pendings
       (Some (if truthy (_pendings s) then bytes_of (_pendings s) ++ bytes_ else bytes_))
       (set_lock true s),
     []).
Proof.
  destruct s as [c p r wo le lt ec lk]. cbn [_writer cfg _pendings _last_error_time].
  intros -> Hc Hp.
  unfold _async_send, _async_send_internal, get_writer, clean, lock, try_except,
    bind, ret, raise, get, modify, emit, set_pendings, set_lock.
  destruct (truthy p) eqn:T.
  - destruct Hp as [Hp|Hp]; [discriminate Hp|].
    destruct p as [[|x0 P]|]; try discriminate T. cbn [bytes_of app] in *.
    cbn. rewrite Hc. cbn.
    replace (len (x0 :: P ++ bytes_) >? _bufmax c) with false
      by (symmetry; rewrite Z.gtb_ltb; apply Z.ltb_ge; exact Hp).
    reflexivity.
  - cbn. rewrite ?T. cbn. rewrite Hc. cbn. rewrite ?T. reflexivity.
Qed.

(** ** Failures *)

(** X6: a transport error raised by [write] or [drain] is recorded and the
    connection is dropped.  When the overflow handler raises nothing but
    instances of [Exception] and the writer's [close] completes, the send
    returns [False], [last_error] is the error, [last_error_time] the clock
    reading, [_reader] and [_writer] are [None] and the writer that was used
    is the one closed. *)
Theorem transport_failure_drops_connection
    (bytes_ : bytes) (w : env) (s : FluentSender) (wr : handle) (e : exn) :
  _writer s = Some wr ->
  writer_write w = Some e \/ (writer_write w = None /\ writer_drain w = Some e) ->
  is_transport_error e = true ->
  close_completes w = true ->
  (forall h b e',
      _buffer_overflow_handler (cfg s) = Some h -> h b = Some e' ->
      is_Exception e' = true) ->
  let x := _async_send bytes_ w s in
  result x = Ret (Some false) /\
  _last_error (state x) = Some e /\
  _last_error_time (state x) = now_send_error w /\
  _reader (state x) = None /\
  _writer (state x) = None /\
  writer_closes (trace x) = [wr] /\
  connection_attempts (trace x) = 0%nat /\
  _error_count (state x) = _error_count s.
Proof.
  destruct s as [c p r wo le lt ec lk]. cbn [_writer cfg _error_count].
  unfold close_completes.
  intros -> Hw He Hc H.
  destruct Hw as [Hw|[Hw Hd]].
  - run_py; tidy;
      repeat match goal with
             | H2 : ?h _ = Some ?e |- _ =>
                 pose proof (H _ _ _ eq_refl H2); clear H2
             end; try congruence; repeat split; congruence.
  - run_py; tidy;
      repeat match goal with
             | H2 : ?h _ = Some ?e |- _ =>
                 pose proof (H _ _ _ eq_refl H2); clear H2
             end; try congruence; repeat split; congruence.
Qed.

(** X7: [bufmax] is not checked on the first payload that is buffered.  A
    failed send that finds no backlog keeps its payload, whatever its size,
    and does not call the overflow handler. *)
Theorem first_buffered_payload_is_not_capped
    (bytes_ : bytes) (w : env) (s : FluentSender) :
  truthy (_pendings s) = false ->
  failed (result (_async_send bytes_ w s)) = true ->
  _pendings (state (_async_send bytes_ w s)) = Some bytes_ /\
  overflow_calls (trace (_async_send bytes_ w s)) = [].
Proof.
  destruct s as [c p r wo le lt ec lk]. cbn [_pendings]. intros T.
  destruct p as [[|x0 P]|]; try discriminate T;
    run_py; intros; try discriminate; tidy; split; reflexivity.
Qed.

(** X8: without an overflow handler, a backlog that a failed send takes over
    [bufmax] is dropped: [_pendings] is [None] afterwards and nothing was
    handed to anyone. *)
Theorem oversized_backlog_dropped_without_handler
    (bytes_ : bytes) (w : env) (s : FluentSender) :
  _buffer_overflow_handler (cfg s) = None ->
  truthy (_pendings s) = true ->
  len (bytes_of (_pendings s) ++ bytes_) > _bufmax (cfg s) ->
  failed (result (_async_send bytes_ w s)) = true ->
  _pendings (state (_async_send bytes_ w s)) = None /\
  overflow_calls (trace (_async_send bytes_ w s)) = [].
Proof.
  intros Hh T Hl F. split.
  - rewrite (failed_send_pendings bytes_ w s F), T.
    replace (len (bytes_of (_pendings s) ++ bytes_) >? _bufmax (cfg s)) with true
      by (symmetry; apply Z.gtb_lt; lia).
    reflexivity.
  - clear F Hl T. destruct s as [c p r wo le lt ec lk]. cbn [cfg] in Hh.
    run_py; tidy; reflexivity.
Qed.

(** ** [close] *)

(** X9: [close] is idempotent: after a [close] that completed, another
    [close] calls nothing and changes nothing. *)
Theorem close_is_idempotent (w w' : env) (s : FluentSender) :
  close_completes w = true ->
  close w' (state (close w s)) = (Ret tt, state (close w s), []).
Proof.
  destruct s as [c p r wo le lt ec lk]. unfold close_completes.
  run_py; intros; tidy; reflexivity.
Qed.

(** ** Connections *)

(** X10: the cooldown gates only new connections.  A send that finds a
    writer open uses it whatever the clock says: with [write] and [drain]
    succeeding it returns [True] after exactly one write and one drain on
    that writer, without a connection attempt. *)
Theorem open_connection_is_reused
    (bytes_ : bytes) (w : env) (s : FluentSender) (wr : handle) :
  _writer s = Some wr ->
  writer_write w = None ->
  writer_drain w = None ->
  let x := _async_send bytes_ w s in
  result x = Ret (Some true) /\
  trace x =
    [EvWrite wr (if truthy (_pendings s) then bytes_of (_pendings s) ++ bytes_
                 else bytes_);
     EvDrain wr] /\
  _writer (state x) = Some wr /\
  _reader (state x) = _reader s.
Proof.
  destruct s as [c p r wo le lt ec lk]. cbn [_writer _pendings _reader].
  intros -> Hw Hd.
  run_py; tidy; repeat split; reflexivity.
Qed.

(** X11: [connection_factory] lets no failure of [open_connection] that is
    an [Exception], a timeout or a cancellation reach its caller: it returns
    [None] after one attempt on the configured host and port, writes one
    message to stderr and records the error with the clock reading. *)
Theorem connection_factory_swallows_failures (w : env) (s : FluentSender) (e : exn) :
  open_connection w = Raise e ->
  is_timeout_or_cancel e || is_Exception e = true ->
  let x := connection_factory w s in
  result x = Ret None /\
  _last_error (state x) = Some e /\
  _last_error_time (state x) = now_connect_error w /\
  trace x =
    [EvOpenConnection (_host (cfg s)) (_port (cfg s));
     EvStderr (if is_timeout_or_cancel e then "Timeout connecting to fluentd"
               else "Unknown error connecting to fluentd")] /\
  _writer (state x) = _writer s /\
  _pendings (state x) = _pendings s /\
  _error_count (state x) = _error_count s.
Proof.
  destruct s as [c p r wo le lt ec lk]. cbn [cfg _writer _pendings _error_count].
  intros Ho He.
  unfold connection_factory, last_error_setter, try_except, bind, ret, raise, get,
    modify, emit, result, state, trace.
  rewrite Ho. cbn.
  destruct (is_timeout_or_cancel e); cbn.
  - repeat split; reflexivity.
  - cbn in He. rewrite He. cbn. repeat split; reflexivity.
Qed.

(** X12: a send without writer or backlog, once the cooldown is over and
    with a collector that accepts the connection and the data, connects to
    the configured host and port, writes the payload, drains, and returns
    [True]; the new reader and writer are kept and [error_count] is 0. *)
Theorem send_connects_then_writes
    (bytes_ : bytes) (w : env) (s : FluentSender) (rd wr : handle) :
  _writer s = None ->
  truthy (_pendings s) = false ->
  Qgt_bool (fadd (_last_error_time s) (_retry_timeout (cfg s))) (now_acquire w) = false ->
  open_connection w = Ret (rd, wr) ->
  writer_write w = None ->
  writer_drain w = None ->
  let x := _async_send bytes_ w s in
  result x = Ret (Some true) /\
  trace x =
    [EvOpenConnection (_host (cfg s)) (_port (cfg s)); EvWrite wr bytes_; EvDrain wr] /\
  _reader (state x) = Some rd /\
  _writer (state x) = Some wr /\
  _error_count (state x) = 0 /\
  _pendings (state x) = None.
Proof.
  destruct s as [c p r wo le lt ec lk].
  cbn [_writer _pendings cfg _last_error_time].
  intros -> T Hc Ho Hw Hd.
  run_py; tidy; repeat split; reflexivity.
Qed.

(** X13: the backlog goes out first.  After a failed send of [A] that found
    no backlog, a send of [B] that succeeds writes [A ++ B] in one piece and
    leaves no backlog. *)
Theorem backlog_is_sent_before_new_payload
    (A B : bytes) (w1 w2 : env) (s : FluentSender) :
  truthy (_pendings s) = false ->
  failed (result (_async_send A w1 s)) = true ->
  result (_async_send B w2 (state (_async_send A w1 s))) = Ret (Some true) ->
  writes (trace (_async_send B w2 (state (_async_send A w1 s)))) = [A ++ B] /\
  _pendings (state (_async_send B w2 (state (_async_send A w1 s)))) = None.
Proof.
  intros T F1 R2.
  pose proof (failed_send_pendings A w1 s F1) as P1. rewrite T in P1.
  set (s1 := state (_async_send A w1 s)) in *.
  clearbody s1. destruct s1 as [c p r wo le lt ec lk]. cbn [_pendings] in *. subst p.
  revert R2. destruct A as [|a A'];
    run_py; intros; try discriminate; tidy; split; reflexivity.
Qed.

(** X24: an exception that is not an [Exception] (a [KeyboardInterrupt])
    raised by [write] passes through every handler and leaves
    [_async_send].  Nothing is recorded or closed; the payload was already
    appended to a backlog if there was one, and is not stored otherwise. *)
Theorem interrupt_during_write_propagates
    (bytes_ : bytes) (w : env) (s : FluentSender) (wr : handle) (e : exn) :
  _writer s = Some wr ->
  writer_write w = Some e ->
  is_Exception e = false ->
  is_transport_error e = false ->
  let x := _async_send bytes_ w s in
  result x = Raise e /\
  _pendings (state x) =
    (if truthy (_pendings s) then Some (bytes_of (_pendings s) ++ bytes_)
     else _pendings s) /\
  _last_error (state x) = _last_error s /\
  _last_error_time (state x) = _last_error_time s /\
  _error_count (state x) = _error_count s /\
  _writer (state x) = Some wr /\
  writer_closes (trace x) = [] /\
  overflow_calls (trace x) = [].
Proof.
  destruct s as [c p r wo le lt ec lk].
  cbn [_writer _pendings _last_error _last_error_time _error_count].
  intros -> Hw He Ht.
  run_py; tidy; repeat split; reflexivity.
Qed.

(** X25: when closing the writer after a transport error raises an
    [Exception] other than [RuntimeError], the send returns [None] and the
    writer is kept: [_reader] and [_writer] are not cleared, so the next
    send uses the same writer.  The transport error is the one recorded. *)
Theorem failed_close_keeps_the_writer
    (bytes_ : bytes) (w : env) (s : FluentSender) (wr : handle) (e ec : exn) :
  _writer s = Some wr ->
  writer_write w = Some e ->
  is_transport_error e = true ->
  writer_close w = Some ec ->
  is_RuntimeError ec = false ->
  is_Exception ec = true ->
  (forall h b e',
      _buffer_overflow_handler (cfg s) = Some h -> h b = Some e' ->
      is_Exception e' = true) ->
  let x := _async_send bytes_ w s in
  result x = Ret None /\
  _writer (state x) = Some wr /\
  _reader (state x) = _reader s /\
  _last_error (state x) = Some e /\
  writer_closes (trace x) = [wr].
Proof.
  destruct s as [c p r wo le lt ec0 lk]. cbn [_writer _reader cfg].
  intros -> Hw He Hc Hr Hx H.
  run_py; tidy;
    repeat match goal with
           | H2 : ?h _ = Some ?e |- _ => pose proof (H _ _ _ eq_refl H2); clear H2
           end; try congruence; repeat split; congruence.
Qed.

(** ** Invariants of the sender *)

(** A property of the sender that the methods with a body of their own keep
    is kept by every operation: [async_emit] and [async_emit_with_time] only
    record an error and send. *)
Lemma run_invariant packb (P : FluentSender -> Prop) :
  (forall b w s, P s -> P (state (_async_send b w s))) ->
  (forall w s, P s -> P (state (get_writer w s))) ->
  (forall b s, P s -> P (state (clean b s))) ->
  (forall e now s, P s -> P (state (last_error_setter e now s))) ->
  (forall s, P s -> P (state (lock s))) ->
  (forall w s, P s -> P (state (close w s))) ->
  forall o w s, P s -> P (fst (run packb o w s)).
Proof.
  intros Hsend Hget Hclean Hset Hlock Hclose.
  assert (Hemit : forall label t d w s,
             P s -> P (state (async_emit_with_time packb label t d w s))).
  { intros label t d w s H.
    unfold async_emit_with_time, bind, try_except, ret, raise.
    destruct (EventTime t) as [et|e]; cbn; [|exact H].
    pose proof (make_packet_keeps_state packb label et d s) as E1.
    destruct (_make_packet packb label et d s) as [[[b|e] s1] l1]; cbn in E1; subst s1.
    - pose proof (Hsend b w s H) as G.
      destruct (_async_send b w s) as [[r2 s2] l2]. exact G.
    - destruct (is_Exception e); [|exact H].
      pose proof (Hset (Some e) (now_pack_error w) s H) as H1.
      cbn in H1.
      set (s1 := set_last_error_time (now_pack_error w) (set_last_error (Some e) s)) in *.
      pose proof (make_packet_keeps_state packb label et
                    (critical_record (format_exc w)) s1) as E2.
      destruct (_make_packet packb label et (critical_record (format_exc w)) s1)
        as [[[b|e'] s2] l2]; cbn in E2; subst s2; cbn.
      + pose proof (Hsend b w s1 H1) as G.
        destruct (_async_send b w s1) as [[r3 s3] l3]. exact G.
      + exact H1. }
  intros o w s H. destruct o; cbn [run forget fst].
  - apply Hemit, H.
  - apply Hemit, H.
  - rewrite make_packet_keeps_state. exact H.
  - apply Hsend, H.
  - destruct (async_send_of_internal bytes_ w s) as (<- & _). apply Hsend, H.
  - apply Hget, H.
  - apply Hclean, H.
  - replace (state (_call_buffer_overflow_handler pending_events s)) with s; [exact H|].
    destruct s as [c p r wo le lt ec lk]. run_py; reflexivity.
  - apply Hset, H.
  - apply (Hset None 0%Q), H.
  - apply Hlock, H.
  - apply Hclose, H.
Qed.


(** X15: in every state a sender can reach, [error_count] is not
    negative. *)
Theorem error_count_is_never_negative packb (c : config) (s : FluentSender) :
  reachable packb c s ->
  0 <= _error_count s.
Proof.
  intros R. induction R as [|s o w R IH].
  - cbn. lia.
  - revert IH. apply (run_invariant packb (fun s => 0 <= _error_count s));
      clear; intros;
      match goal with s : FluentSender |- _ => destruct s as [c p r wo le lt ec lk] end;
      try match goal with e : option exn |- _ => destruct e end;
      revert H; run_py; cbn; intros; lia.
Qed.

(** ** [EventTime] outside the claimed range *)

Local Open Scope Q_scope.

(** Rounding keeps a number between two floats that enclose it. *)
Lemma rnd_between (x a b : Q) :
  0 <= x -> representable a -> representable b ->
  a <= x <= b -> a <= rnd x <= b.
Proof.
  intros Hx Ra Rb [Hl Hu].
  pose proof (rnd_nearest x a Hx Ra) as Na.
  pose proof (rnd_nearest x b Hx Rb) as Nb.
  assert (Ea : Qabs (a - x) == x - a) by (rewrite Qabs_neg by lra; ring).
  assert (Eb : Qabs (b - x) == b - x) by (apply Qabs_pos; lra).
  rewrite Ea in Na. rewrite Eb in Nb.
  apply Qabs_Qle_condition in Na. apply Qabs_Qle_condition in Nb. lra.
Qed.

(** Between 0 and 1 the floats are at most [2^-53] apart from any number. *)
Lemma rnd_unit_error (v : Q) :
  0 <= v <= 1 -> Qabs (rnd v - v) <= 1 # (2 ^ 53).
Proof.
  intros [V1 V2].
  set (m := Qfloor (v * inject_Z (2 ^ 53))).
  pose proof (Qfloor_le (v * inject_Z (2 ^ 53))) as F1.
  pose proof (Qlt_floor (v * inject_Z (2 ^ 53))) as F2.
  rewrite inject_Z_succ in F2. fold m in F1, F2.
  assert (P : pow2 (-53) == 1 # (2 ^ 53)) by reflexivity.
  assert (I : inject_Z (2 ^ 53) == 9007199254740992 # 1) by reflexivity.
  assert (M : (0 <= m <= 2 ^ 53)%Z).
  { split.
    - change 0%Z with (Qfloor 0). apply Qfloor_resp_le. rewrite I. lra.
    - rewrite Zle_Qle. rewrite I in *. lra. }
  assert (Zr : representable (inject_Z m * pow2 (-53))).
  { exists m, (-53)%Z. split; [lia|]. split; [lia|]. reflexivity. }
  pose proof (rnd_nearest v _ V1 Zr) as N.
  eapply Qle_trans; [exact N|].
  rewrite P. rewrite I in F1, F2.
  change (1 # 2 ^ 53) with (1 # 9007199254740992).
  apply Qabs_Qle_condition. split; lra.
Qed.

Lemma inject_Z_nonneg (n : Z) : (0 <= n)%Z -> 0 <= inject_Z n.
Proof. intros H. change 0 with (inject_Z 0). rewrite <- Zle_Qle. exact H. Qed.

Lemma int_of_float_nonneg (x : Q) : 0 <= x -> int_of_float x = Qfloor x.
Proof.
  intros H. unfold int_of_float. apply Qle_bool_iff in H. rewrite H. reflexivity.
Qed.

(** What [int(x * 10 ** 9)] is for a fraction [0 <= f <= 1]: an integer
    within one of the exact product. *)
Lemma nanoseconds_of_fraction (f : Q) :
  0 <= f <= 1 ->
  let n := int_of_float (fmul f (inject_Z (10 ^ 9))) in
  (0 <= n <= 10 ^ 9)%Z /\ Qabs (inject_Z n - f * inject_Z (10 ^ 9)) <= 1.
Proof.
  intros [F0 F1]. cbv zeta. unfold fmul.
  set (x := f * inject_Z (10 ^ 9)).
  assert (I : inject_Z (10 ^ 9) == 1000000000 # 1) by reflexivity.
  assert (X : 0 <= x <= inject_Z (10 ^ 9)).
  { unfold x. rewrite I. split; nra. }
  destruct X as [X0 X1].
  pose proof (Qfloor_le x) as G1. pose proof (Qlt_floor x) as G2.
  rewrite inject_Z_succ in G2.
  assert (K : (0 <= Qfloor x <= 10 ^ 9)%Z).
  { split.
    - change 0%Z with (Qfloor 0). apply Qfloor_resp_le. exact X0.
    - rewrite <- (Qfloor_Z (10 ^ 9)). apply Qfloor_resp_le. exact X1. }
  assert (B : inject_Z (Qfloor x) <= rnd x <= inject_Z (Qfloor x + 1)).
  { apply rnd_between; [exact X0 | apply representable_Z; lia
                        | apply representable_Z; lia |].
    rewrite inject_Z_succ. lra. }
  assert (T : 0 <= rnd x <= inject_Z (10 ^ 9)).
  { apply rnd_between; [exact X0 | apply (representable_Z 0); lia
                        | apply representable_Z; lia | lra]. }
  rewrite inject_Z_succ in B. destruct B as [B1 B2]. destruct T as [T0 T1].
  rewrite (int_of_float_nonneg _ T0).
  pose proof (Qfloor_le (rnd x)) as H1. pose proof (Qlt_floor (rnd x)) as H2.
  rewrite inject_Z_succ in H2.
  assert (L : (Qfloor x <= Qfloor (rnd x))%Z).
  { rewrite <- (Qfloor_Z (Qfloor x)) at 1. apply Qfloor_resp_le. exact B1. }
  assert (U : (Qfloor (rnd x) <= Qfloor x + 1)%Z).
  { rewrite Zle_Qle, inject_Z_succ. lra. }
  assert (U2 : (Qfloor (rnd x) <= 10 ^ 9)%Z).
  { rewrite <- (Qfloor_Z (10 ^ 9)). apply Qfloor_resp_le. exact T1. }
  split; [lia|].
  assert (L' : inject_Z (Qfloor x) <= inject_Z (Qfloor (rnd x)))
    by (rewrite <- Zle_Qle; exact L).
  assert (U' : inject_Z (Qfloor (rnd x)) <= inject_Z (Qfloor x) + 1).
  { rewrite <- inject_Z_succ, <- Zle_Qle. exact U. }
  apply Qabs_Qle_condition. lra.
Qed.

(** What [n / 10 ** 9] and then [0 + q] are for [0 <= n <= 10^9]. *)
Lemma decoded_fraction (n : Z) :
  (0 <= n <= 10 ^ 9)%Z ->
  let r := fadd (inject_Z 0) (int_truediv n (10 ^ 9)) in
  0 <= r /\ Qabs (r - inject_Z n / inject_Z (10 ^ 9)) <= 2 # (2 ^ 53).
Proof.
  intros [N0 N1]. cbv zeta. unfold fadd, int_truediv.
  set (v := inject_Z n / inject_Z (10 ^ 9)).
  assert (A : 0 <= inject_Z n) by (apply inject_Z_nonneg; exact N0).
  assert (B : inject_Z n <= inject_Z (10 ^ 9)) by (rewrite <- Zle_Qle; exact N1).
  assert (V : 0 <= v <= 1).
  { unfold v. split.
    - apply Qle_shift_div_l; [reflexivity|]. lra.
    - apply Qle_shift_div_r; [reflexivity|]. lra. }
  assert (R0 : representable 0) by (apply (representable_Z 0); lia).
  assert (R1 : representable 1) by (apply (representable_Z 1); lia).
  pose proof (rnd_between v 0 1 (proj1 V) R0 R1 V) as Q.
  pose proof (rnd_unit_error v V) as E1.
  set (q := rnd v) in *.
  assert (U : 0 <= inject_Z 0 + q <= 1).
  { change (inject_Z 0) with 0. lra. }
  pose proof (rnd_between _ 0 1 (proj1 U) R0 R1 U) as R.
  pose proof (rnd_unit_error _ U) as E2.
  split; [exact (proj1 R)|].
  apply Qabs_Qle_condition in E1. apply Qabs_Qle_condition in E2.
  change (inject_Z 0) with 0 in *.
  change (1 # 2 ^ 53) with (1 # 9007199254740992) in *.
  change (2 # 2 ^ 53) with (2 # 9007199254740992) in *.
  apply Qabs_Qle_condition. split; lra.
Qed.

Lemma int_of_float_negative_fraction (t : Q) : -1 < t < 0 -> int_of_float t = 0%Z.
Proof.
  intros [H1 H2]. unfold int_of_float.
  destruct (Qle_bool 0 t) eqn:E; [apply Qle_bool_iff in E; lra|].
  unfold Qceiling.
  assert (F : Qfloor (- t) = 0%Z).
  { pose proof (Qfloor_le (- t)) as G1. pose proof (Qlt_floor (- t)) as G2.
    rewrite inject_Z_succ in G2.
    assert (L : (0 <= Qfloor (- t))%Z).
    { change 0%Z with (Qfloor 0). apply Qfloor_resp_le. lra. }
    assert (U : (Qfloor (- t) < 1)%Z).
    { rewrite Zlt_Qlt. change (inject_Z 1) with 1. lra. }
    lia. }
  rewrite F. reflexivity.
Qed.

(** [t % 1] for [-1 < t < 0]: the float nearest to [t + 1]. *)
Lemma float_mod_1_negative_fraction (t : Q) :
  -1 < t < 0 ->
  0 <= float_mod_1 t <= 1 /\ Qabs (float_mod_1 t - (t + 1)) <= 1 # (2 ^ 53).
Proof.
  intros H. unfold float_mod_1.
  rewrite (int_of_float_negative_fraction t H).
  destruct H as [H1 H2].
  assert (C : Qcompare (t - inject_Z 0) 0 = Lt).
  { apply (proj1 (Qlt_alt _ _)). change (inject_Z 0) with 0. lra. }
  rewrite C. unfold fadd.
  set (u := t - inject_Z 0 + 1).
  assert (U : 0 <= u <= 1) by (unfold u; change (inject_Z 0) with 0; lra).
  assert (R0 : representable 0) by (apply (representable_Z 0); lia).
  assert (R1 : representable 1) by (apply (representable_Z 1); lia).
  split; [exact (rnd_between u 0 1 (proj1 U) R0 R1 U)|].
  pose proof (rnd_unit_error u U) as E.
  apply Qabs_Qle_condition in E. apply Qabs_Qle_condition.
  unfold u in *. change (inject_Z 0) with 0 in *. split; lra.
Qed.

Lemma fits_u32_true (v : Z) : (0 <= v < 2 ^ 32)%Z -> fits_u32 v = true.
Proof.
  intros H. unfold fits_u32. apply andb_true_intro. split.
  - apply Z.leb_le. lia.
  - apply Z.ltb_lt. lia.
Qed.


(** Inside that range the two fields fit their 32 bits. *)
Lemma EventTime_fields_fit (t : Q) :
  -1 < t < inject_Z (2 ^ 32) ->
  (0 <= int_of_float t < 2 ^ 32)%Z /\
  (0 <= int_of_float (fmul (float_mod_1 t) (inject_Z (10 ^ 9))) <= 10 ^ 9)%Z.
Proof.
  intros [H1 H2].
  destruct (Qlt_le_dec t 0) as [N|P].
  - rewrite (int_of_float_negative_fraction t (conj H1 N)).
    split; [lia|].
    destruct (float_mod_1_negative_fraction t (conj H1 N)) as [F _].
    exact (proj1 (nanoseconds_of_fraction _ F)).
  - rewrite (seconds_eq t P). split; [exact (seconds_range t P H2)|].
    rewrite (nanoseconds_eq t P). exact (proj1 (nanoseconds_range t P)).
Qed.


(** X17: a timestamp with [-1 < t < 0] is accepted and comes back one
    second later: its seconds are stored as 0 and its fraction as that of
    [t + 1], so [from_bytes] yields a value within two nanoseconds of
    [t + 1]. *)
Theorem negative_fraction_decodes_one_second_later (t : Q) :
  -1 < t < 0 ->
  exists (et : ExtType) (r : Q),
    EventTime t = Ret et /\
    from_bytes (data et) = Ret r /\
    Qabs (r - (t + 1)) <= 2 # (10 ^ 9).
Proof.
  intros H.
  assert (H' : -1 < t < inject_Z (2 ^ 32)).
  { assert (I : inject_Z (2 ^ 32) == 4294967296 # 1) by reflexivity.
    rewrite I. destruct H. split; lra. }
  destruct (EventTime_fields_fit t H') as [S N]. clear H'.
  set (n := int_of_float (fmul (float_mod_1 t) (inject_Z (10 ^ 9)))) in *.
  destruct (struct_roundtrip (int_of_float t) n) as (d & Hp & Hl & Hu);
    [exact S | lia |].
  exists (mkExtType 0 d).
  exists (fadd (inject_Z 0) (int_truediv n (10 ^ 9))).
  split; [unfold EventTime; cbv zeta; fold n; rewrite Hp; reflexivity|].
  split.
  { unfold from_bytes. cbn [data]. rewrite Hu.
    rewrite (int_of_float_negative_fraction t H). reflexivity. }
  destruct (float_mod_1_negative_fraction t H) as [F E].
  destruct (nanoseconds_of_fraction _ F) as [_ D]. fold n in D.
  destruct (decoded_fraction n N) as [_ Q].
  set (r := fadd (inject_Z 0) (int_truediv n (10 ^ 9))) in *.
  set (f := float_mod_1 t) in *.
  assert (XV : inject_Z n / inject_Z (10 ^ 9) - f
               == (inject_Z n - f * inject_Z (10 ^ 9)) * (1 # 10 ^ 9)).
  { change (inject_Z (10 ^ 9)) with (1000000000 # 1).
    change (1 # 10 ^ 9) with (1 # 1000000000).
    unfold Qdiv. change (/ (1000000000 # 1)) with (1 # 1000000000). ring. }
  apply Qabs_Qle_condition in E. apply Qabs_Qle_condition in D.
  apply Qabs_Qle_condition in Q.
  change (1 # 10 ^ 9) with (1 # 1000000000) in *.
  change (2 # 10 ^ 9) with (2 # 1000000000) in *.
  change (1 # 2 ^ 53) with (1 # 9007199254740992) in *.
  change (2 # 2 ^ 53) with (2 # 9007199254740992) in *.
  apply Qabs_Qle_condition. split; lra.
Qed.

(** X18: a whole number of seconds survives the round trip exactly: for an
    integer [0 <= n < 2^32], [EventTime(float(n))] stores [n] seconds and 0
    nanoseconds and [from_bytes] gives [n] back. *)
Theorem whole_seconds_round_trip_exactly (n : Z) :
  (0 <= n < 2 ^ 32)%Z ->
  exists (et : ExtType) (r : Q),
    EventTime (inject_Z n) = Ret et /\
    struct_unpack_II (data et) = Ret (n, 0%Z) /\
    from_bytes (data et) = Ret r /\
    r == inject_Z n.
Proof.
  intros H.
  assert (P : 0 <= inject_Z n) by (apply inject_Z_nonneg; lia).
  assert (S : int_of_float (inject_Z n) = n).
  { rewrite (int_of_float_nonneg _ P). apply Qfloor_Z. }
  assert (F : float_mod_1 (inject_Z n) = 0).
  { unfold float_mod_1. rewrite S.
    assert (C : Qcompare (inject_Z n - inject_Z n) 0 = Eq).
    { apply (proj1 (Qeq_alt _ _)). ring. }
    rewrite C. reflexivity. }
  assert (N : int_of_float (fmul (float_mod_1 (inject_Z n)) (inject_Z (10 ^ 9))) = 0%Z).
  { rewrite F. reflexivity. }
  destruct (struct_roundtrip n 0) as (d & Hp & Hl & Hu); [exact H | lia |].
  exists (mkExtType 0 d), (fadd (inject_Z n) (int_truediv 0 (10 ^ 9))).
  split; [unfold EventTime; cbv zeta; rewrite S, N, Hp; reflexivity|].
  cbn [data]. split; [exact Hu|].
  split; [unfold from_bytes; rewrite Hu; reflexivity|].
  change (int_truediv 0 (10 ^ 9)) with 0. unfold fadd.
  assert (R : representable (inject_Z n)) by (apply representable_Z; lia).
  assert (B : inject_Z n <= inject_Z n + 0 <= inject_Z n) by (split; lra).
  assert (P' : 0 <= inject_Z n + 0) by lra.
  pose proof (rnd_between _ _ _ P' R R B) as [B1 B2].
  apply Qle_antisym; assumption.
Qed.

Lemma rnd_nonneg (x : Q) : 0 <= x -> 0 <= rnd x.
Proof.
  intros H.
  assert (R0 : representable 0) by (apply (representable_Z 0); lia).
  pose proof (rnd_nearest x 0 H R0) as N.
  assert (E : Qabs (0 - x) == x) by (rewrite Qabs_neg by lra; ring).
  rewrite E in N. apply Qabs_Qle_condition in N. lra.
Qed.

Lemma Z_of_byte_nonneg (b : Byte.byte) : (0 <= Z_of_byte b)%Z.
Proof. unfold Z_of_byte. apply N2Z.is_nonneg. Qed.

Lemma unpack_u32_be_nonneg (b3 b2 b1 b0 : Byte.byte) :
  (0 <= unpack_u32_be b3 b2 b1 b0)%Z.
Proof.
  unfold unpack_u32_be.
  repeat (apply Z.lor_nonneg; split);
    try (apply Z.shiftl_nonneg); apply Z_of_byte_nonneg.
Qed.

(** X19: [from_bytes] is defined on the byte strings of length 8 and on no
    others: it returns a float that is not negative for 8 bytes and raises
    [struct.error] for any other length. *)
Theorem from_bytes_needs_eight_bytes (b : bytes) :
  (List.length b = 8%nat -> exists r, from_bytes b = Ret r /\ 0 <= r) /\
  (List.length b <> 8%nat -> from_bytes b = Raise StructError).
Proof.
  split.
  - intros H.
    do 8 (destruct b as [|? b]; [discriminate H|]).
    destruct b; [|discriminate H].
    eexists. split; [reflexivity|].
    unfold fadd, int_truediv. apply rnd_nonneg.
    assert (A : 0 <= inject_Z (unpack_u32_be b0 b1 b2 b3))
      by (apply inject_Z_nonneg, unpack_u32_be_nonneg).
    assert (B : 0 <= inject_Z (unpack_u32_be b4 b5 b6 b7))
      by (apply inject_Z_nonneg, unpack_u32_be_nonneg).
    assert (C : 0 <= inject_Z (unpack_u32_be b4 b5 b6 b7) / inject_Z (10 ^ 9)).
    { apply Qle_shift_div_l; [reflexivity|]. lra. }
    apply rnd_nonneg in C. lra.
  - intros H. unfold from_bytes.
    do 8 (destruct b as [|? b]; [reflexivity|]).
    destruct b; [contradiction H; reflexivity | reflexivity].
Qed.

Local Close Scope Q_scope.

(** ** Emitting a record *)

Section EmitProperties.

Variable packb : packet -> list (string * pyvalue) -> res bytes.


(** X21: when the record can be packed, [async_emit_with_time] is the send
    of the packed bytes: same result, same final state, and the same events
    after the packet printed in verbose mode.  The packet carries the tag
    of the sender, followed by a dot and the label unless the label is
    empty. *)
Theorem emit_sends_the_packed_record
    (label : string) (t : Q) (d : pyvalue) (w : env) (s : FluentSender)
    (et : ExtType) (b : bytes) :
  EventTime t = Ret et ->
  packb (full_tag s label, et, d) (_packer_kwargs (cfg s)) = Ret b ->
  let x := async_emit_with_time packb label t d w s in
  result x = result (_async_send b w s) /\
  state x = state (_async_send b w s) /\
  trace x =
    (if _verbose (cfg s) then [EvPrint (full_tag s label, et, d)] else [])
    ++ trace (_async_send b w s).
Proof.
  intros He Hp. cbv zeta.
  unfold async_emit_with_time, _make_packet, bind, try_except, ret, raise, get, emit,
    result, state, trace.
  rewrite He. cbn. rewrite Hp.
  destruct (_verbose (cfg s)); cbn;
    destruct (_async_send b w s) as [[r1 s1] l1]; cbn; repeat split; reflexivity.
Qed.

(** X22: when neither the record nor the record substituted for it can be
    packed, [async_emit_with_time] raises the second exception and sends
    nothing; the first exception is in [last_error], stamped with the clock
    reading, and the rest of the state is as before. *)
Theorem emit_raises_when_substitute_fails_too
    (label : string) (t : Q) (d : pyvalue) (w : env) (s : FluentSender)
    (et : ExtType) (e1 e2 : exn) :
  EventTime t = Ret et ->
  packb (full_tag s label, et, d) (_packer_kwargs (cfg s)) = Raise e1 ->
  is_Exception e1 = true ->
  packb (full_tag s label, et, critical_record (format_exc w))
    (_packer_kwargs (cfg s)) = Raise e2 ->
  let x := async_emit_with_time packb label t d w s in
  result x = Raise e2 /\
  state x = set_last_error_time (now_pack_error w) (set_last_error (Some e1) s) /\
  writes (trace x) = [] /\
  connection_attempts (trace x) = 0%nat.
Proof.
  intros He H1 E1 H2. cbv zeta.
  unfold async_emit_with_time, _make_packet, last_error_setter, bind,
    try_except, ret, raise, get, modify, emit, result, state, trace.
  rewrite He. cbn. rewrite H1.
  destruct (_verbose (cfg s)) eqn:V; cbn; rewrite E1; cbn;
    change (full_tag (set_last_error_time (now_pack_error w)
                        (set_last_error (Some e1) s)) label)
      with (full_tag s label);
    rewrite V, H2; cbn; repeat split; reflexivity.
Qed.

End EmitProperties.

(** ** The module-level sender *)

(** X23: the module-level [close()] needs a sender: before [setup] it raises
    [AttributeError]; right after [setup] it closes nothing and changes
    nothing; in general it is [FluentSender.close] on the registered sender,
    which stays registered. *)
Theorem module_close_acts_on_registered_sender (w : env) :
  module_close w None = (Raise AttributeError, None, []) /\
  (forall c g, module_close w (setup c g) = (Ret tt, setup c g, [])) /\
  (forall sender g,
      let y := module_close w (_set_global_sender (Some sender) g) in
      fst (fst y) = result (close w sender) /\
      get_global_sender (snd (fst y)) = Some (state (close w sender)) /\
      snd y = trace (close w sender)).
Proof.
  split; [reflexivity|]. split; [reflexivity|].
  intros sender g. cbv zeta.
  unfold module_close, _set_global_sender, get_global_sender, result, state, trace.
  destruct (close w sender) as [[r s'] l]. cbn. auto.
Qed.

(** * Instances of the further properties *)

Lemma demo_handler_raises_only_Exception (c : config) :
  _buffer_overflow_handler c = Some (fun _ => None) ->
  forall (h : bytes -> option exn) (b : bytes) (e : exn),
    _buffer_overflow_handler c = Some h -> h b = Some e -> is_Exception e = true.
Proof.
  intros H h b e H1 H2. rewrite H in H1. injection H1 as <-. discriminate H2.
Qed.

Lemma overflow_handler_called_at_most_once_witness :
  (List.length (overflow_calls (trace (_async_send [Byte.x03] (refused 100) backlogged)))
   <= 1)%nat.
Proof.
  apply (overflow_handler_called_at_most_once [Byte.x03] (refused 100) backlogged).
  apply demo_handler_raises_only_Exception. reflexivity.
Defined.

Lemma cancelling_handler_is_called_twice_witness :
  overflow_calls
    (trace (_async_send [Byte.x03] (healthy 10)
              (set_pendings (Some [Byte.x01; Byte.x02]) (__init__ cancelling_config))))
  = [[Byte.x01; Byte.x02; Byte.x03]; [Byte.x01; Byte.x02; Byte.x03]].
Proof.
  pose proof (cancelling_handler_is_called_twice [Byte.x03] (healthy 10)
                (set_pendings (Some [Byte.x01; Byte.x02]) (__init__ cancelling_config))
                (fun _ => Some CancelledError)
                eq_refl eq_refl eq_refl eq_refl eq_refl eq_refl) as H.
  cbv zeta in H. exact (proj1 (proj2 H)).
Defined.

Lemma successful_send_drains_backlog_witness :
  writes (trace (_async_send [Byte.x01] (healthy 100) (__init__ demo_config)))
  = [[Byte.x01]].
Proof.
  pose proof (successful_send_drains_backlog [Byte.x01] (healthy 100)
                (__init__ demo_config) eq_refl) as H.
  cbv zeta in H. exact (proj1 H).
Defined.

Lemma send_during_cooldown_only_buffers_witness :
  _async_send [Byte.x01] (healthy 10) (__init__ demo_config) =
    (Ret (Some false),
     set_pendings (Some [Byte.x01]) (set_lock true (__init__ demo_config)), []).
Proof.
  apply (send_during_cooldown_only_buffers [Byte.x01] (healthy 10) (__init__ demo_config)).
  - reflexivity.
  - reflexivity.
  - left. reflexivity.
Defined.

Lemma transport_failure_drops_connection_witness :
  result (_async_send [Byte.x01] (with_drain (Some OSError) (healthy 100)) connected)
    = Ret (Some false) /\
  _writer (state (_async_send [Byte.x01] (with_drain (Some OSError) (healthy 100))
                    connected)) = None.
Proof.
  pose proof (transport_failure_drops_connection [Byte.x01]
                (with_drain (Some OSError) (healthy 100)) connected 2%nat OSError
                eq_refl (or_intror (conj eq_refl eq_refl)) eq_refl eq_refl
                (demo_handler_raises_only_Exception (cfg connected) eq_refl)) as H.
  cbv zeta in H. split; [exact (proj1 H) | exact (proj1 (proj2 (proj2 (proj2 (proj2 H)))))].
Defined.

Lemma first_buffered_payload_is_not_capped_witness :
  _pendings (state (_async_send [Byte.x01; Byte.x02; Byte.x03] (refused 100)
                      (__init__ demo_config)))
    = Some [Byte.x01; Byte.x02; Byte.x03] /\
  overflow_calls (trace (_async_send [Byte.x01; Byte.x02; Byte.x03] (refused 100)
                           (__init__ demo_config))) = [].
Proof.
  apply (first_buffered_payload_is_not_capped [Byte.x01; Byte.x02; Byte.x03]
           (refused 100) (__init__ demo_config)); reflexivity.
Defined.

Lemma oversized_backlog_dropped_without_handler_witness :
  _pendings (state (_async_send [Byte.x03] (refused 100)
                      (set_pendings (Some [Byte.x01; Byte.x02]) (__init__ quiet_config))))
    = None /\
  overflow_calls (trace (_async_send [Byte.x03] (refused 100)
                           (set_pendings (Some [Byte.x01; Byte.x02])
                              (__init__ quiet_config)))) = [].
Proof.
  apply (oversized_backlog_dropped_without_handler [Byte.x03] (refused 100)
           (set_pendings (Some [Byte.x01; Byte.x02]) (__init__ quiet_config)));
    reflexivity.
Defined.

Lemma close_is_idempotent_witness :
  close (healthy 101) (state (close (healthy 100) connected))
    = (Ret tt, state (close (healthy 100) connected), []).
Proof.
  apply (close_is_idempotent (healthy 100) (healthy 101) connected). reflexivity.
Defined.

Lemma open_connection_is_reused_witness :
  result (_async_send [Byte.x01] (healthy 10) connected) = Ret (Some true) /\
  trace (_async_send [Byte.x01] (healthy 10) connected)
    = [EvWrite 2%nat [Byte.x01]; EvDrain 2%nat].
Proof.
  pose proof (open_connection_is_reused [Byte.x01] (healthy 10) connected 2%nat
                eq_refl eq_refl eq_refl) as H.
  cbv zeta in H. split; [exact (proj1 H) | exact (proj1 (proj2 H))].
Defined.

Lemma connection_factory_swallows_failures_witness :
  result (connection_factory (refused 100) (__init__ demo_config)) = Ret None /\
  _last_error (state (connection_factory (refused 100) (__init__ demo_config)))
    = Some OSError.
Proof.
  pose proof (connection_factory_swallows_failures (refused 100) (__init__ demo_config)
                OSError eq_refl eq_refl) as H.
  cbv zeta in H. split; [exact (proj1 H) | exact (proj1 (proj2 H))].
Defined.

Lemma send_connects_then_writes_witness :
  trace (_async_send [Byte.x01] (healthy 100) (__init__ demo_config))
    = [EvOpenConnection "localhost" 24224; EvWrite 2%nat [Byte.x01]; EvDrain 2%nat].
Proof.
  pose proof (send_connects_then_writes [Byte.x01] (healthy 100) (__init__ demo_config)
                1%nat 2%nat eq_refl eq_refl eq_refl eq_refl eq_refl eq_refl) as H.
  cbv zeta in H. exact (proj1 (proj2 H)).
Defined.

Lemma backlog_is_sent_before_new_payload_witness :
  writes (trace (_async_send [Byte.x02] (healthy 200)
                   (state (_async_send [Byte.x01] (refused 100) (__init__ roomy_config)))))
    = [[Byte.x01] ++ [Byte.x02]].
Proof.
  apply (backlog_is_sent_before_new_payload [Byte.x01] [Byte.x02] (refused 100)
           (healthy 200) (__init__ roomy_config)); reflexivity.
Defined.


Lemma error_count_is_never_negative_witness : 0 <= _error_count after_recovery.
Proof.
  apply (error_count_is_never_negative demo_packb demo_config).
  unfold after_recovery. do 2 apply reachable_step. apply reachable_init.
Defined.

Lemma negative_fraction_decodes_one_second_later_witness :
  exists (et : ExtType) (r : Q),
    EventTime (-1 # 2) = Ret et /\
    from_bytes (data et) = Ret r /\
    (Qabs (r - ((-1 # 2) + 1)) <= 2 # (10 ^ 9))%Q.
Proof.
  apply (negative_fraction_decodes_one_second_later (-1 # 2)).
  split; reflexivity.
Defined.

Lemma whole_seconds_round_trip_exactly_witness :
  exists (et : ExtType) (r : Q),
    EventTime (inject_Z 1700000000) = Ret et /\
    struct_unpack_II (data et) = Ret (1700000000, 0) /\
    from_bytes (data et) = Ret r /\
    (r == inject_Z 1700000000)%Q.
Proof.
  apply (whole_seconds_round_trip_exactly 1700000000). lia.
Defined.


Lemma emit_sends_the_packed_record_witness :
  result (async_emit_with_time demo_packb "access" t_1700000000_5 PyNone (healthy 100)
            connected)
  = result (_async_send [Byte.x93] (healthy 100) connected).
Proof.
  pose proof (emit_sends_the_packed_record demo_packb "access" t_1700000000_5 PyNone
                (healthy 100) connected et_1700000000_5 [Byte.x93]
                eq_refl eq_refl) as H.
  cbv zeta in H. exact (proj1 H).
Defined.

Lemma emit_raises_when_substitute_fails_too_witness :
  result (async_emit_with_time broken_packb "access" t_1700000000_5 PyNone (healthy 100)
            connected) = Raise TypeError.
Proof.
  pose proof (emit_raises_when_substitute_fails_too broken_packb "access"
                t_1700000000_5 PyNone (healthy 100) connected et_1700000000_5
                TypeError TypeError eq_refl eq_refl eq_refl eq_refl) as H.
  cbv zeta in H. exact (proj1 H).
Defined.

Lemma interrupt_during_write_propagates_witness :
  result (_async_send [Byte.x01] (interrupted 100) connected) = Raise KeyboardInterrupt /\
  _pendings (state (_async_send [Byte.x01] (interrupted 100) connected)) = None.
Proof.
  pose proof (interrupt_during_write_propagates [Byte.x01] (interrupted 100) connected
                2%nat KeyboardInterrupt eq_refl eq_refl eq_refl eq_refl) as H.
  cbv zeta in H. split; [exact (proj1 H) | exact (proj1 (proj2 H))].
Defined.

Lemma failed_close_keeps_the_writer_witness :
  result (_async_send [Byte.x01]
            (with_close (Some ValueError) (with_write (Some OSError) (healthy 100)))
            connected) = Ret None /\
  _writer (state (_async_send [Byte.x01]
                    (with_close (Some ValueError) (with_write (Some OSError) (healthy 100)))
                    connected)) = Some 2%nat.
Proof.
  pose proof (failed_close_keeps_the_writer [Byte.x01]
                (with_close (Some ValueError) (with_write (Some OSError) (healthy 100)))
                connected 2%nat OSError ValueError
                eq_refl eq_refl eq_refl eq_refl eq_refl eq_refl
                (demo_handler_raises_only_Exception (cfg connected) eq_refl)) as H.
  cbv zeta in H. split; [exact (proj1 H) | exact (proj1 (proj2 H))].
Defined.
